(** * godspeed-mcp: the Godspeed API client and its MCP tool dispatcher

    A shallow embedding of [godspeed.ts] (class [GodspeedAPI]), [types.ts]
    and [index.ts] (the [server.tool] registrations), followed by the
    properties of the adapter that are checked against this embedding.

    JavaScript strings are represented by their UTF-8 bytes ([string]);
    a string holding a lone surrogate has no such representation and is
    outside the model.  Objects are association lists in own-property
    enumeration order, because [Object.entries], rest destructuring and
    [JSON.stringify] all observe that order. *)

From Stdlib Require Import String Ascii List Bool ZArith QArith Lia.
From Stdlib Require Import DecimalString.
Import ListNotations.
Local Open Scope list_scope.
Local Open Scope string_scope.

Set Warnings "-register-all".

(* ===================================================================== *)
(** ** JavaScript values *)
(* ===================================================================== *)

(** A Number: a finite value (every binary64 is a rational; [-0] is
    identified with [0], which none of the operations below can tell
    apart), [NaN], or one of the infinities. *)
Inductive jsnum : Type :=
| Finite (q : Q)
| NaN
| PosInfinity
| NegInfinity.

(** The values that can occur in argument records and in parsed response
    bodies.  [VDate None] is an invalid [Date]; [VDate (Some ms)] carries
    the time value in milliseconds. *)
Inductive jsval : Type :=
| VUndefined
| VNull
| VBool (b : bool)
| VNumber (n : jsnum)
| VString (s : string)
| VDate (time : option Z)
| VArray (items : list jsval)
| VObject (props : list (string * jsval)).

Definition jsobject : Type := list (string * jsval).

(** [o.k]: the first binding of [k], or [undefined]. *)
Fixpoint get (o : jsobject) (k : string) : jsval :=
  match o with
  | [] => VUndefined
  | (k', v) :: rest => if String.eqb k' k then v else get rest k
  end.

(** [const { k, ...rest } = o]: every own property but [k]. *)
Definition omit (k : string) (o : jsobject) : jsobject :=
  filter (fun kv => negb (String.eqb (fst kv) k)) o.

Definition is_undefined (v : jsval) : bool :=
  match v with VUndefined => true | _ => false end.

(** [Number.isInteger]. *)
Definition Number_isInteger (v : jsval) : bool :=
  match v with
  | VNumber (Finite q) => Pos.eqb (Qden (Qred q)) 1
  | _ => false
  end.

(** [n < 0] on Numbers. *)
Definition num_ltb0 (n : jsnum) : bool :=
  match n with
  | Finite q => Z.ltb (Qnum q) 0
  | NegInfinity => true
  | NaN | PosInfinity => false
  end.

Definition num_is_zero (n : jsnum) : bool :=
  match n with
  | Finite q => Z.eqb (Qnum q) 0
  | _ => false
  end.

(** ToBoolean. *)
Definition truthy (v : jsval) : bool :=
  match v with
  | VUndefined | VNull => false
  | VBool b => b
  | VNumber NaN => false
  | VNumber n => negb (num_is_zero n)
  | VString s => negb (String.eqb s "")
  | VDate _ | VArray _ | VObject _ => true
  end.

(* ===================================================================== *)
(** ** Strings *)
(* ===================================================================== *)

(** [Array.prototype.join]. *)
Fixpoint join (sep : string) (parts : list string) : string :=
  match parts with
  | [] => ""
  | [p] => p
  | p :: rest => p ++ sep ++ join sep rest
  end.

Definition in_range (lo hi : nat) (c : ascii) : bool :=
  Nat.leb lo (nat_of_ascii c) && Nat.leb (nat_of_ascii c) hi.

Definition is_digit (c : ascii) : bool := in_range 48 57 c.
Definition is_upper (c : ascii) : bool := in_range 65 90 c.
Definition is_lower (c : ascii) : bool := in_range 97 122 c.

Definition hex_digit (upper : bool) (n : nat) : ascii :=
  if Nat.ltb n 10 then ascii_of_nat (48 + n)
  else ascii_of_nat ((if upper then 55 else 87) + n).

Definition hex2 (upper : bool) (c : ascii) : string :=
  String (hex_digit upper (Nat.div (nat_of_ascii c) 16))
    (String (hex_digit upper (Nat.modulo (nat_of_ascii c) 16)) "").

(** The characters [encodeURIComponent] leaves alone:
    [A-Z a-z 0-9 - _ . ! ~ * ' ( )]. *)
Definition uri_unreserved (c : ascii) : bool :=
  is_upper c || is_lower c || is_digit c ||
  existsb (Ascii.eqb c)
    ["-"; "_"; "."; "!"; "~"; "*"; "'"; "("; ")"]%char.

(** [encodeURIComponent]: every other byte of the UTF-8 encoding becomes
    [%XX] with upper-case hexadecimal digits. *)
Fixpoint encodeURIComponent (s : string) : string :=
  match s with
  | EmptyString => ""
  | String c rest =>
      (if uri_unreserved c then String c "" else "%" ++ hex2 true c)
      ++ encodeURIComponent rest
  end.

(** [QuoteJSONString]: the two-character escapes, [\u00xx] for the other
    control characters, every other byte as it is. *)
Definition json_escape (c : ascii) : string :=
  let n := nat_of_ascii c in
  if Nat.eqb n 8 then "\b"
  else if Nat.eqb n 9 then "\t"
  else if Nat.eqb n 10 then "\n"
  else if Nat.eqb n 12 then "\f"
  else if Nat.eqb n 13 then "\r"
  else if Nat.eqb n 34 then String "\" (String c "")
  else if Nat.eqb n 92 then "\\"
  else if Nat.ltb n 32 then "\u00" ++ hex2 false c
  else String c "".

Fixpoint json_escape_all (s : string) : string :=
  match s with
  | EmptyString => ""
  | String c rest => json_escape c ++ json_escape_all rest
  end.

Definition dquote : string := String (ascii_of_nat 34) "".
Definition newline : string := String (ascii_of_nat 10) "".

Definition QuoteJSONString (s : string) : string :=
  dquote ++ json_escape_all s ++ dquote.

(** The regular expression [/^\d{4}-\d{2}-\d{2}$/]: a sequence of
    atoms, each repeated a fixed number of times, anchored at both ends.
    Without the [u] flag [\d] is [[0-9]]. *)
Inductive atom : Type :=
| Digit
| Lit (c : ascii).

Definition atom_matches (a : atom) (c : ascii) : bool :=
  match a with
  | Digit => is_digit c
  | Lit c' => Ascii.eqb c c'
  end.

(** Consume [n] characters matching [a]. *)
Fixpoint eat (a : atom) (n : nat) (s : string) : option string :=
  match n with
  | O => Some s
  | S n' =>
      match s with
      | String c rest => if atom_matches a c then eat a n' rest else None
      | EmptyString => None
      end
  end.

Fixpoint anchored_match (re : list (atom * nat)) (s : string) : bool :=
  match re with
  | [] => String.eqb s ""
  | (a, n) :: re' =>
      match eat a n s with
      | Some rest => anchored_match re' rest
      | None => false
      end
  end.

Definition YYYY_MM_DD : list (atom * nat) :=
  [(Digit, 4); (Lit "-", 1); (Digit, 2); (Lit "-", 1); (Digit, 2)]%nat.

(* ===================================================================== *)
(** ** HTTP *)
(* ===================================================================== *)

Inductive Method : Type := GET | POST | PATCH | DELETE.

(** The second argument of [fetch]. *)
Record Request : Type := mkRequest {
  url : string;
  method : Method;
  headers : list (string * string);
  body : option string
}.

(** What [await response.json()] produces. *)
Inductive ParsedBody : Type :=
| JsonBody (data : jsval)
| NotJson (message : string).   (* rejects with a SyntaxError *)

(** What [await fetch(...)] produces. *)
Inductive Reply : Type :=
| TransportFailure (message : string)   (* rejects with a TypeError *)
| HttpResponse (status : Z) (payload : ParsedBody).

(** [response.ok]: the status is in the range 200-299. *)
Definition status_ok (status : Z) : bool :=
  Z.leb 200 status && Z.leb status 299.

(** What the program takes from its host: the number and date renderings
    of the engine, and the remote API behind [fetch]. *)
Record Host : Type := mkHost {
  Number_toString : jsnum -> string;      (* Number::toString, radix 10 *)
  Date_toISOString : Z -> string;         (* of a valid time value *)
  Date_toString : option Z -> string;
  remote : Request -> Reply
}.

(* ===================================================================== *)
(** ** Completions: a state-and-exception monad over the request log *)
(* ===================================================================== *)

(** Every value thrown in this program is an [Error] instance (created by
    [new Error], or a [TypeError]/[SyntaxError] of the runtime), so a
    thrown value is represented by its [message]. *)
Record JsError : Type := Error { message : string }.

Inductive Completion (A : Type) : Type :=
| Normal (a : A)
| Throw (e : JsError).
Arguments Normal {A} a.
Arguments Throw {A} e.

(** The requests handed to [fetch] so far, oldest first. *)
Definition Log : Type := list Request.

Definition Eff (A : Type) : Type := Log -> Completion A * Log.

Definition ret {A} (a : A) : Eff A := fun log => (Normal a, log).

Definition throw {A} (e : JsError) : Eff A := fun log => (Throw e, log).

Definition bind {A B} (m : Eff A) (k : A -> Eff B) : Eff B :=
  fun log =>
    match m log with
    | (Normal a, log') => k a log'
    | (Throw e, log') => (Throw e, log')
    end.

(** [try { m } catch (error) { h error }]. *)
Definition try_catch {A} (m : Eff A) (h : JsError -> Eff A) : Eff A :=
  fun log =>
    match m log with
    | (Normal a, log') => (Normal a, log')
    | (Throw e, log') => h e log'
    end.

Declare Scope eff_scope.
Delimit Scope eff_scope with eff.
Notation "x <- m ;; k" := (bind m (fun x => k))
  (at level 61, m at next level, right associativity) : eff_scope.
Notation "m ;;; k" := (bind m (fun _ => k))
  (at level 61, right associativity) : eff_scope.
Local Open Scope eff_scope.

(** The requests a computation adds to the log. *)
Definition issued {A} (m : Eff A) (log : Log) : list Request :=
  skipn (length log) (snd (m log)).

(* ===================================================================== *)
(** ** String conversion and [JSON.stringify] *)
(* ===================================================================== *)

(** The member strings of [SerializeJSONObject]: a property whose value
    serialises to [undefined] is left out. *)
Definition object_members (ser : jsval -> option string) (colon : string)
    (props : jsobject) : list string :=
  flat_map (fun kv =>
    match kv with
    | (k, v) =>
        match ser v with
        | Some text => [(QuoteJSONString k ++ colon ++ text)%string]
        | None => []
        end
    end) props.

(** The element strings of [SerializeJSONArray]: [undefined] becomes
    [null]. *)
Definition array_elements (ser : jsval -> option string)
    (items : list jsval) : list string :=
  map (fun v => match ser v with Some text => text | None => "null" end) items.

(** The brackets around the parts, on one line when [gap] is empty and
    one part per line, indented, otherwise. *)
Definition bracket (opening closing gap stepback : string)
    (parts : list string) : string :=
  match parts with
  | [] => opening ++ closing
  | _ =>
      if String.eqb gap "" then opening ++ join "," parts ++ closing
      else
        let indent := stepback ++ gap in
        opening ++ newline ++ indent
        ++ join ("," ++ newline ++ indent) parts
        ++ newline ++ stepback ++ closing
  end.

Definition colon_for (gap : string) : string :=
  if String.eqb gap "" then ":" else ": ".

Section Engine.

Variable host : Host.

(** ToString, as applied by [String(v)], template literals,
    [new Error(v)] and [RegExp.prototype.test], where it returns; where it
    throws is [ToString_throws] below. *)
Fixpoint ToString (v : jsval) : string :=
  match v with
  | VUndefined => "undefined"
  | VNull => "null"
  | VBool b => if b then "true" else "false"
  | VNumber n => Number_toString host n
  | VString s => s
  | VDate time => Date_toString host time
  | VArray items =>
      join ","
        (map (fun x =>
                match x with
                | VUndefined | VNull => ""
                | _ => ToString x
                end) items)
  | VObject _ => "[object Object]"
  end.

(** Whether [ToString v] throws a [TypeError] instead of returning.
    [OrdinaryToPrimitive] calls the [toString] of an object and then its
    [valueOf]: a [toString] member of the object's own is data, not a
    function, and hides the inherited one, and the inherited [valueOf]
    returns the object itself, so that no primitive is found.  An array
    converts each of its elements. *)
Fixpoint ToString_throws (v : jsval) : bool :=
  match v with
  | VObject props =>
      existsb (fun member => String.eqb (fst member) "toString") props
  | VArray items => existsb (fun x => ToString_throws x) items
  | _ => false
  end.

(** [SerializeJSONProperty] without a replacer.  [Date.prototype.toJSON]
    gives [null] for an invalid date and the ISO string otherwise. *)
Fixpoint SerializeJSONProperty (gap stepback : string) (v : jsval)
  : option string :=
  match v with
  | VUndefined => None
  | VNull => Some "null"
  | VBool b => Some (if b then "true" else "false")
  | VNumber (Finite q) => Some (Number_toString host (Finite q))
  | VNumber _ => Some "null"
  | VString s => Some (QuoteJSONString s)
  | VDate None => Some "null"
  | VDate (Some ms) => Some (QuoteJSONString (Date_toISOString host ms))
  | VArray items =>
      Some (bracket "[" "]" gap stepback
              (array_elements
                 (SerializeJSONProperty gap (stepback ++ gap)) items))
  | VObject props =>
      Some (bracket "{" "}" gap stepback
              (object_members
                 (SerializeJSONProperty gap (stepback ++ gap))
                 (colon_for gap) props))
  end.

(** [JSON.stringify(v)]. *)
Definition JSON_stringify (v : jsval) : option string :=
  SerializeJSONProperty "" "" v.

(** [JSON.stringify(v, null, 2)]. *)
Definition JSON_stringify_pretty (v : jsval) : option string :=
  SerializeJSONProperty "  " "" v.

(** [re.test(v)] for the date pattern. *)
Definition timeless_test (v : jsval) : bool :=
  anchored_match YYYY_MM_DD (ToString v).

End Engine.

(* ===================================================================== *)
(** ** The API client: class [GodspeedAPI] of [godspeed.ts] *)
(* ===================================================================== *)

Definition API_BASE_URL : string := "https://api.godspeedapp.com".

(** [private authToken: string | undefined]. *)
Record GodspeedAPI : Type := mkGodspeedAPI {
  authToken : option string
}.

(** [new GodspeedAPI()]. *)
Definition createGodspeedClient : GodspeedAPI :=
  {| authToken := None |}.

Definition setAuthToken (api : GodspeedAPI) (token : string) : GodspeedAPI :=
  {| authToken := Some token |}.

(** [response]: the status line and the body that [response.json()] will
    parse. *)
Record Response : Type := mkResponse {
  status : Z;
  payload : ParsedBody
}.

Definition ok (r : Response) : bool := status_ok (status r).

(** [if (cond) { throw new Error(msg); }]. *)
Definition throw_if (cond : bool) (msg : string) : Eff unit :=
  if cond then throw (Error msg) else ret tt.

(** [params.duration_minutes < 0], which the short-circuit [||] only
    evaluates once [Number.isInteger] has held, hence on a Number. *)
Definition lt_zero (v : jsval) : bool :=
  match v with
  | VNumber n => num_ltb0 n
  | _ => false
  end.

(** [data.error]: reading a property of [null] or [undefined] is a
    [TypeError] (message as V8 words it); a primitive, an array or a date
    has no such property. *)
Definition read_error (data : jsval) : Eff jsval :=
  match data with
  | VUndefined =>
      throw (Error "Cannot read properties of undefined (reading 'error')")
  | VNull =>
      throw (Error "Cannot read properties of null (reading 'error')")
  | VObject props => ret (get props "error")
  | _ => ret VUndefined
  end.

(** [new Error(message)]: the message of the error is [ToString message],
    and the [TypeError] of that conversion (worded as V8 does) is thrown in
    its place; without a message the error has an empty one. *)
Definition new_Error (host : Host) (message : jsval) : Eff JsError :=
  if ToString_throws message
  then throw (Error "Cannot convert object to primitive value")
  else ret (Error match message with
                  | VUndefined => ""
                  | _ => ToString host message
                  end).

(** [catch (error) { throw new Error(`<label>: ${error.message}`); }] *)
Definition rewrap {A} (label : string) (error : JsError) : Eff A :=
  throw (Error (label ++ ": " ++ message error)).

Definition auth_required : string :=
  "Authentication token is required. Use setAuthToken() method to set it.".

Section Client.

Variable host : Host.

Local Abbreviation ToString := (ToString host).
Local Abbreviation JSON_stringify := (JSON_stringify host).

(** [await fetch(url, { method, headers, body })]: the request goes on
    the log whether or not a response comes back. *)
Definition fetch (u : string) (m : Method) (h : list (string * string))
    (b : option string) : Eff Response :=
  fun log =>
    let request := mkRequest u m h b in
    match remote host request with
    | TransportFailure msg => (Throw (Error msg), (log ++ [request])%list)
    | HttpResponse s p => (Normal (mkResponse s p), (log ++ [request])%list)
    end.

(** [await response.json()]. *)
Definition json (r : Response) : Eff jsval :=
  match payload r with
  | JsonBody data => ret data
  | NotJson msg => throw (Error msg)
  end.

(** The tail shared by every operation:
    [const data = await response.json();
     if (!response.ok) throw new Error(data.error || generic);
     return data;] *)
Definition settle (generic : string) (response : Response) : Eff jsval :=
  data <- json response ;;
  if negb (ok response) then
    e <- read_error data ;;
    error <- new_Error host (if truthy e then e else VString generic) ;;
    throw error
  else ret data.

Definition getAuthHeaders (api : GodspeedAPI)
  : Eff (list (string * string)) :=
  match authToken api with
  | None => throw (Error auth_required)
  | Some token =>
      if String.eqb token "" then throw (Error auth_required)
      else ret [("Authorization", "Bearer " ++ token);
                ("Content-Type", "application/json")]
  end.

Definition createTask (api : GodspeedAPI) (params : jsobject) : Eff jsval :=
  try_catch
    (headers <- getAuthHeaders api ;;
     response <- fetch (API_BASE_URL ++ "/tasks") POST headers
                   (JSON_stringify (VObject params)) ;;
     settle "Failed to create task" response)
    (rewrap "Create task error").

Definition updateTask (api : GodspeedAPI) (params : jsobject) : Eff jsval :=
  try_catch
    (headers <- getAuthHeaders api ;;
     throw_if (negb (truthy (get params "id"))) "Task ID is required" ;;;
     throw_if (truthy (get params "due_at")
               && truthy (get params "timeless_due_at"))
       "Cannot specify both due_at and timeless_due_at" ;;;
     throw_if (truthy (get params "snoozed_until")
               && truthy (get params "timeless_snoozed_until"))
       "Cannot specify both snoozed_until and timeless_snoozed_until" ;;;
     throw_if (truthy (get params "starts_at")
               && truthy (get params "timeless_starts_at"))
       "Cannot specify both starts_at and timeless_starts_at" ;;;
     throw_if (truthy (get params "timeless_due_at")
               && negb (timeless_test host (get params "timeless_due_at")))
       "timeless_due_at must be formatted as YYYY-MM-DD" ;;;
     throw_if (truthy (get params "timeless_snoozed_until")
               && negb (timeless_test host
                          (get params "timeless_snoozed_until")))
       "timeless_snoozed_until must be formatted as YYYY-MM-DD" ;;;
     throw_if (truthy (get params "timeless_starts_at")
               && negb (timeless_test host
                          (get params "timeless_starts_at")))
       "timeless_starts_at must be formatted as YYYY-MM-DD" ;;;
     throw_if (negb (is_undefined (get params "duration_minutes"))
               && (negb (Number_isInteger (get params "duration_minutes"))
                   || lt_zero (get params "duration_minutes")))
       "duration_minutes must be a positive integer" ;;;
     let id := get params "id" in
     let updateData := omit "id" params in
     response <- fetch (API_BASE_URL ++ "/tasks/" ++ ToString id) PATCH
                   headers (JSON_stringify (VObject updateData)) ;;
     settle "Failed to update task" response)
    (rewrap "Update task error").

Definition getTask (api : GodspeedAPI) (id : jsval) : Eff jsval :=
  try_catch
    (throw_if (negb (truthy id)) "Task ID is required" ;;;
     headers <- getAuthHeaders api ;;
     response <- fetch (API_BASE_URL ++ "/tasks/" ++ ToString id) GET
                   headers None ;;
     settle "Failed to get task" response)
    (rewrap "Get task error").

Definition deleteTask (api : GodspeedAPI) (id : jsval) : Eff jsval :=
  try_catch
    (throw_if (negb (truthy id)) "Task ID is required" ;;;
     headers <- getAuthHeaders api ;;
     response <- fetch (API_BASE_URL ++ "/tasks/" ++ ToString id) DELETE
                   headers None ;;
     settle "Failed to delete task" response)
    (rewrap "Delete task error").

(** [Object.entries(params).filter(...).map(...).join('&')]. *)
Definition queryParams (params : option jsobject) : string :=
  match params with
  | Some o =>
      join "&"
        (map (fun kv => fst kv ++ "=" ++ encodeURIComponent (ToString (snd kv)))
           (filter (fun kv => negb (is_undefined (snd kv))) o))
  | None => ""
  end.

Definition listTasks_url (params : option jsobject) : string :=
  API_BASE_URL ++ "/tasks"
  ++ (if negb (String.eqb (queryParams params) "")
      then "?" ++ queryParams params else "").

Definition listTasks (api : GodspeedAPI) (params : option jsobject)
  : Eff jsval :=
  try_catch
    (headers <- getAuthHeaders api ;;
     response <- fetch (listTasks_url params) GET headers None ;;
     settle "Failed to list tasks" response)
    (rewrap "List tasks error").

Definition getTaskLists (api : GodspeedAPI) : Eff jsval :=
  try_catch
    (headers <- getAuthHeaders api ;;
     response <- fetch (API_BASE_URL ++ "/lists") GET headers None ;;
     settle "Failed to get task lists" response)
    (rewrap "Get task lists error").

(** [return this.updateTask({ id, is_complete: true })]. *)
Definition completeTask (api : GodspeedAPI) (id : jsval) : Eff jsval :=
  updateTask api [("id", id); ("is_complete", VBool true)].

(** [return this.updateTask({ id, is_complete: false })]. *)
Definition uncompleteTask (api : GodspeedAPI) (id : jsval) : Eff jsval :=
  updateTask api [("id", id); ("is_complete", VBool false)].

(** [params || {}]: an object is always truthy. *)
Definition duplicateList (api : GodspeedAPI) (listId : jsval)
    (params : option jsobject) : Eff jsval :=
  try_catch
    (throw_if (negb (truthy listId)) "List ID is required" ;;;
     headers <- getAuthHeaders api ;;
     response <- fetch
                   (API_BASE_URL ++ "/lists/" ++ ToString listId
                    ++ "/duplicate")
                   POST headers
                   (JSON_stringify
                      (VObject (match params with
                                | Some o => o
                                | None => []
                                end))) ;;
     settle "Failed to duplicate list" response)
    (rewrap "Duplicate list error").

End Client.

(* ===================================================================== *)
(** ** Argument schemas: the [zod] shapes of [index.ts] *)
(* ===================================================================== *)

Inductive NumberCheck : Type :=
| z_int         (* .int():         Number.isInteger(x) *)
| z_nonnegative.  (* .nonnegative(): x >= 0 *)

Inductive ZodType : Type :=
| z_string
| z_enum (values : list string)
| z_date
| z_number (checks : list NumberCheck)
| z_boolean
| z_array (element : ZodType)
| z_record_any            (* z.record(z.any()) *)
| z_optional (inner : ZodType).

Definition num_geb0 (n : jsnum) : bool :=
  match n with
  | Finite q => Z.leb 0 (Qnum q)
  | PosInfinity => true
  | NaN | NegInfinity => false
  end.

Definition number_check (c : NumberCheck) (n : jsnum) : bool :=
  match c with
  | z_int => Number_isInteger (VNumber n)
  | z_nonnegative => num_geb0 n
  end.

(** Whether a schema parses a value successfully.  [z.number()] refuses
    [NaN]; [z.date()] wants a [Date] with a valid time value;
    [z.record(z.any())] wants a plain object; [.optional()] also lets
    [undefined] through.  None of these schemas transforms its input. *)
Fixpoint zod_accepts (t : ZodType) (v : jsval) : bool :=
  match t with
  | z_string => match v with VString _ => true | _ => false end
  | z_enum values =>
      match v with
      | VString s => existsb (String.eqb s) values
      | _ => false
      end
  | z_date => match v with VDate (Some _) => true | _ => false end
  | z_number checks =>
      match v with
      | VNumber NaN => false
      | VNumber n => forallb (fun c => number_check c n) checks
      | _ => false
      end
  | z_boolean => match v with VBool _ => true | _ => false end
  | z_array element =>
      match v with
      | VArray items => forallb (zod_accepts element) items
      | _ => false
      end
  | z_record_any => match v with VObject _ => true | _ => false end
  | z_optional inner => is_undefined v || zod_accepts inner v
  end.

Definition Shape : Type := list (string * ZodType).

(** [key in data]. *)
Definition has_key (data : jsobject) (k : string) : bool :=
  existsb (fun kv => String.eqb (fst kv) k) data.

(** [z.object(shape).safeParse(args)]: every key of the shape is checked
    against [args[key]]; the result has the keys of the shape that [args]
    has, in the order of the shape, and drops every other key. *)
Definition zod_object_parse (shape : Shape) (args : jsval)
  : option jsobject :=
  match args with
  | VObject data =>
      if forallb (fun kt => zod_accepts (snd kt) (get data (fst kt))) shape
      then Some (flat_map
                   (fun kt =>
                      if has_key data (fst kt)
                      then [(fst kt, get data (fst kt))] else [])
                   shape)
      else None
  | _ => None
  end.

(** The keys a shape requires: those whose schema refuses [undefined]. *)
Definition required_keys (shape : Shape) : list string :=
  map fst (filter (fun kt => negb (zod_accepts (snd kt) VUndefined)) shape).

(* ===================================================================== *)
(** ** The tool dispatcher: [index.ts] *)
(* ===================================================================== *)

Inductive Tool : Type :=
| tool_listTasks
| tool_getTask
| tool_createTask
| tool_updateTask
| tool_deleteTask
| tool_completeTask
| tool_uncompleteTask
| tool_getTaskLists
| tool_duplicateList.

Definition all_tools : list Tool :=
  [tool_listTasks; tool_getTask; tool_createTask; tool_updateTask;
   tool_deleteTask; tool_completeTask; tool_uncompleteTask;
   tool_getTaskLists; tool_duplicateList].

(** The first argument of each [server.tool(...)]. *)
Definition tool_name (t : Tool) : string :=
  match t with
  | tool_listTasks => "listTasks"
  | tool_getTask => "getTask"
  | tool_createTask => "createTask"
  | tool_updateTask => "updateTask"
  | tool_deleteTask => "deleteTask"
  | tool_completeTask => "completeTask"
  | tool_uncompleteTask => "uncompleteTask"
  | tool_getTaskLists => "getTaskLists"
  | tool_duplicateList => "duplicateList"
  end.

Definition duration_schema : ZodType :=
  z_optional (z_number [z_int; z_nonnegative]).

(** The second argument of each [server.tool(...)]. *)
Definition inputSchema (t : Tool) : Shape :=
  match t with
  | tool_listTasks =>
      [("status", z_optional (z_enum ["incomplete"; "complete"]));
       ("list_id", z_optional z_string);
       ("updated_before", z_optional z_string);
       ("updated_after", z_optional z_string)]
  | tool_getTask => [("id", z_string)]
  | tool_createTask =>
      [("title", z_string);
       ("list_id", z_optional z_string);
       ("location", z_optional (z_enum ["start"; "end"]));
       ("notes", z_optional z_string);
       ("due_at", z_optional z_date);
       ("timeless_due_at", z_optional z_string);
       ("starts_at", z_optional z_date);
       ("timeless_starts_at", z_optional z_string);
       ("duration_minutes", duration_schema);
       ("label_names", z_optional (z_array z_string));
       ("label_ids", z_optional (z_array z_string));
       ("metadata", z_optional z_record_any)]
  | tool_updateTask =>
      [("id", z_string);
       ("title", z_optional z_string);
       ("notes", z_optional z_string);
       ("due_at", z_optional z_date);
       ("timeless_due_at", z_optional z_string);
       ("snoozed_until", z_optional z_date);
       ("timeless_snoozed_until", z_optional z_string);
       ("starts_at", z_optional z_date);
       ("timeless_starts_at", z_optional z_string);
       ("duration_minutes", duration_schema);
       ("is_complete", z_optional z_boolean);
       ("is_cleared", z_optional z_boolean);
       ("add_label_names", z_optional (z_array z_string));
       ("add_label_ids", z_optional (z_array z_string));
       ("remove_label_names", z_optional (z_array z_string));
       ("remove_label_ids", z_optional (z_array z_string));
       ("metadata", z_optional z_record_any)]
  | tool_deleteTask => [("id", z_string)]
  | tool_completeTask => [("id", z_string)]
  | tool_uncompleteTask => [("id", z_string)]
  | tool_getTaskLists => [("random_string", z_string)]
  | tool_duplicateList =>
      [("list_id", z_string); ("name", z_optional z_string)]
  end.

(** [{ type: "text", text }]; [text] is [None] when [JSON.stringify]
    returned [undefined]. *)
Record Content : Type := mkContent {
  type : string;
  text : option string
}.

Record ToolResult : Type := mkToolResult {
  content : list Content
}.

Definition text_result (t : option string) : ToolResult :=
  {| content := [ {| type := "text"; text := t |} ] |}.

Section Dispatcher.

Variable host : Host.
Variable godspeedApi : GodspeedAPI.

(** The body every handler shares:
    [try { const result = await call;
           return { content: [{ type: "text",
                                text: JSON.stringify(result, null, 2) }] }; }
     catch (error) {
       return { content: [{ type: "text",
                            text: `Error: ${error.message}` }] }; }] *)
Definition respond (call : Eff jsval) : Eff ToolResult :=
  try_catch
    (result <- call ;;
     ret (text_result (JSON_stringify_pretty host result)))
    (fun error => ret (text_result (Some ("Error: " ++ message error)))).

(** The third argument of each [server.tool(...)], applied to the parsed
    arguments. *)
Definition handler (t : Tool) (params : jsobject) : Eff ToolResult :=
  match t with
  | tool_listTasks => respond (listTasks host godspeedApi (Some params))
  | tool_getTask => respond (getTask host godspeedApi (get params "id"))
  | tool_createTask => respond (createTask host godspeedApi params)
  | tool_updateTask => respond (updateTask host godspeedApi params)
  | tool_deleteTask => respond (deleteTask host godspeedApi (get params "id"))
  | tool_completeTask =>
      respond (completeTask host godspeedApi (get params "id"))
  | tool_uncompleteTask =>
      respond (uncompleteTask host godspeedApi (get params "id"))
  | tool_getTaskLists => respond (getTaskLists host godspeedApi)
  | tool_duplicateList =>
      let list_id := get params "list_id" in
      let name := get params "name" in
      respond (duplicateList host godspeedApi list_id
                 (if truthy name then Some [("name", name)] else None))
  end.

(** What a tool invocation comes to. *)
Inductive ToolOutcome : Type :=
| InvalidParams                   (* the arguments do not fit the schema *)
| Returned (result : ToolResult).

(** The dispatch of the protocol framework ([McpServer], not part of this
    repository): the arguments are parsed against the declared shape, and
    the handler runs on the parsed record only if that succeeds. *)
Definition callTool (t : Tool) (args : jsval) : Eff ToolOutcome :=
  match zod_object_parse (inputSchema t) args with
  | None => ret InvalidParams
  | Some params =>
      result <- handler t params ;;
      ret (Returned result)
  end.

End Dispatcher.

(* ===================================================================== *)
(** ** The input types of the client: [types.ts] *)
(* ===================================================================== *)

Inductive TsType : Type :=
| ts_string
| ts_Date
| ts_number
| ts_boolean
| ts_literals (values : list string)   (* 'a' | 'b' *)
| ts_array (element : TsType)
| ts_Record_any.                       (* Record<string, any> *)

(** One property of an interface, or one parameter of a method; [name?:]
    makes it optional. *)
Record TsProperty : Type := mkProp {
  prop_name : string;
  prop_type : TsType;
  prop_optional : bool
}.

Definition required (n : string) (t : TsType) : TsProperty := mkProp n t false.
Definition optional (n : string) (t : TsType) : TsProperty := mkProp n t true.

Definition CreateTaskParams : list TsProperty :=
  [required "title" ts_string;
   optional "list_id" ts_string;
   optional "location" (ts_literals ["start"; "end"]);
   optional "notes" ts_string;
   optional "due_at" ts_Date;
   optional "timeless_due_at" ts_string;
   optional "starts_at" ts_Date;
   optional "timeless_starts_at" ts_string;
   optional "duration_minutes" ts_number;
   optional "label_names" (ts_array ts_string);
   optional "label_ids" (ts_array ts_string);
   optional "metadata" ts_Record_any].

Definition UpdateTaskParams : list TsProperty :=
  [required "id" ts_string;
   optional "title" ts_string;
   optional "notes" ts_string;
   optional "due_at" ts_Date;
   optional "timeless_due_at" ts_string;
   optional "snoozed_until" ts_Date;
   optional "timeless_snoozed_until" ts_string;
   optional "starts_at" ts_Date;
   optional "timeless_starts_at" ts_string;
   optional "duration_minutes" ts_number;
   optional "is_complete" ts_boolean;
   optional "is_cleared" ts_boolean;
   optional "add_label_names" (ts_array ts_string);
   optional "add_label_ids" (ts_array ts_string);
   optional "remove_label_names" (ts_array ts_string);
   optional "remove_label_ids" (ts_array ts_string);
   optional "metadata" ts_Record_any].

Definition ListTasksParams : list TsProperty :=
  [optional "status" (ts_literals ["incomplete"; "complete"]);
   optional "list_id" ts_string;
   optional "updated_before" ts_string;
   optional "updated_after" ts_string].

Definition DuplicateListParams : list TsProperty :=
  [optional "name" ts_string].

(** What the client operation behind each tool takes.  A positional
    parameter is listed under the name of the tool argument its handler
    passes for it ([duplicateList(list_id, ...)] for [listId]). *)
Definition client_inputs (t : Tool) : list TsProperty :=
  match t with
  | tool_listTasks => ListTasksParams         (* listTasks(params?) *)
  | tool_getTask => [required "id" ts_string] (* getTask(id: string) *)
  | tool_createTask => CreateTaskParams
  | tool_updateTask => UpdateTaskParams
  | tool_deleteTask => [required "id" ts_string]
  | tool_completeTask => [required "id" ts_string]
  | tool_uncompleteTask => [required "id" ts_string]
  | tool_getTaskLists => []                   (* getTaskLists() *)
  | tool_duplicateList =>                     (* duplicateList(listId, params?) *)
      required "list_id" ts_string :: DuplicateListParams
  end.

(** Two lists of the same length, related element by element. *)
Definition all2 {A B} (rel : A -> B -> bool) (xs : list A) (ys : list B)
  : bool :=
  Nat.eqb (length xs) (length ys)
  && forallb (fun xy => rel (fst xy) (snd xy)) (combine xs ys).

(** A schema and a type describe the same values. *)
Fixpoint type_mirrors (z : ZodType) (t : TsType) : bool :=
  match z, t with
  | z_string, ts_string => true
  | z_enum zs, ts_literals ts => all2 String.eqb zs ts
  | z_date, ts_Date => true
  | z_number _, ts_number => true
  | z_boolean, ts_boolean => true
  | z_array ze, ts_array te => type_mirrors ze te
  | z_record_any, ts_Record_any => true
  | _, _ => false
  end.

(** Same name, same optionality, same type. *)
Definition property_mirrors (entry : string * ZodType) (p : TsProperty)
  : bool :=
  String.eqb (fst entry) (prop_name p)
  && match snd entry with
     | z_optional inner => prop_optional p && type_mirrors inner (prop_type p)
     | z => negb (prop_optional p) && type_mirrors z (prop_type p)
     end.

Definition shape_mirrors (shape : Shape) (props : list TsProperty) : bool :=
  all2 property_mirrors shape props.

(** The test [updateTask] makes on [duration_minutes]:
    [v !== undefined && (!Number.isInteger(v) || v < 0)]. *)
Definition duration_rejected (v : jsval) : bool :=
  negb (is_undefined v) && (negb (Number_isInteger v) || lt_zero v).

(* ===================================================================== *)
(** ** Calls of the client, and what each one says when it fails *)
(* ===================================================================== *)

Inductive Operation : Type :=
| CreateTask (params : jsobject)
| UpdateTask (params : jsobject)
| GetTask (id : jsval)
| DeleteTask (id : jsval)
| ListTasks (params : option jsobject)
| GetTaskLists
| CompleteTask (id : jsval)
| UncompleteTask (id : jsval)
| DuplicateList (listId : jsval) (params : option jsobject).

Definition invoke (host : Host) (api : GodspeedAPI) (op : Operation)
  : Eff jsval :=
  match op with
  | CreateTask params => createTask host api params
  | UpdateTask params => updateTask host api params
  | GetTask id => getTask host api id
  | DeleteTask id => deleteTask host api id
  | ListTasks params => listTasks host api params
  | GetTaskLists => getTaskLists host api
  | CompleteTask id => completeTask host api id
  | UncompleteTask id => uncompleteTask host api id
  | DuplicateList listId params => duplicateList host api listId params
  end.

(** The prefix the [catch] block of the operation puts before the
    message; [completeTask] and [uncompleteTask] run inside
    [updateTask]'s. *)
Definition error_label (op : Operation) : string :=
  match op with
  | CreateTask _ => "Create task error"
  | UpdateTask _ | CompleteTask _ | UncompleteTask _ => "Update task error"
  | GetTask _ => "Get task error"
  | DeleteTask _ => "Delete task error"
  | ListTasks _ => "List tasks error"
  | GetTaskLists => "Get task lists error"
  | DuplicateList _ _ => "Duplicate list error"
  end.

(** The message used when a rejected response names no error. *)
Definition generic_failure (op : Operation) : string :=
  match op with
  | CreateTask _ => "Failed to create task"
  | UpdateTask _ | CompleteTask _ | UncompleteTask _ => "Failed to update task"
  | GetTask _ => "Failed to get task"
  | DeleteTask _ => "Failed to delete task"
  | ListTasks _ => "Failed to list tasks"
  | GetTaskLists => "Failed to get task lists"
  | DuplicateList _ _ => "Failed to duplicate list"
  end.

Definition token_set (api : GodspeedAPI) : bool :=
  match authToken api with
  | Some token => negb (String.eqb token "")
  | None => false
  end.

(** The headers of an authenticated request. *)
Definition bearer (token : string) : list (string * string) :=
  [("Authorization", "Bearer " ++ token);
   ("Content-Type", "application/json")].

(** The properties whose value is present. *)
Definition supplied (o : jsobject) : jsobject :=
  filter (fun kv => negb (is_undefined (snd kv))) o.

(** The text of a JSON object with the given members, on one line. *)
Definition json_object (host : Host) (members : jsobject) : string :=
  "{"
  ++ join ","
       (map (fun kv =>
               QuoteJSONString (fst kv) ++ ":"
               ++ match SerializeJSONProperty host "" "" (snd kv) with
                  | Some value => value
                  | None => "null"
                  end)
          members)
  ++ "}".

(** The validations of [updateTask], in the order it makes them: the
    condition under which each one throws, and the message it throws. *)
Definition update_checks (host : Host) (params : jsobject)
  : list (bool * string) :=
  [(negb (truthy (get params "id")), "Task ID is required");
   (truthy (get params "due_at") && truthy (get params "timeless_due_at"),
    "Cannot specify both due_at and timeless_due_at");
   (truthy (get params "snoozed_until")
    && truthy (get params "timeless_snoozed_until"),
    "Cannot specify both snoozed_until and timeless_snoozed_until");
   (truthy (get params "starts_at")
    && truthy (get params "timeless_starts_at"),
    "Cannot specify both starts_at and timeless_starts_at");
   (truthy (get params "timeless_due_at")
    && negb (timeless_test host (get params "timeless_due_at")),
    "timeless_due_at must be formatted as YYYY-MM-DD");
   (truthy (get params "timeless_snoozed_until")
    && negb (timeless_test host (get params "timeless_snoozed_until")),
    "timeless_snoozed_until must be formatted as YYYY-MM-DD");
   (truthy (get params "timeless_starts_at")
    && negb (timeless_test host (get params "timeless_starts_at")),
    "timeless_starts_at must be formatted as YYYY-MM-DD");
   (duration_rejected (get params "duration_minutes"),
    "duration_minutes must be a positive integer")].

Fixpoint first_failure (checks : list (bool * string)) : option string :=
  match checks with
  | [] => None
  | (fails, msg) :: rest => if fails then Some msg else first_failure rest
  end.

Definition id_failure (id : jsval) (msg : string) : option string :=
  if truthy id then None else Some msg.

(** What an authenticated call throws before any request, if anything. *)
Definition local_failure (host : Host) (op : Operation) : option string :=
  match op with
  | CreateTask _ | ListTasks _ | GetTaskLists => None
  | UpdateTask params => first_failure (update_checks host params)
  | CompleteTask id | UncompleteTask id =>
      id_failure id "Task ID is required"
  | GetTask id | DeleteTask id => id_failure id "Task ID is required"
  | DuplicateList listId _ => id_failure listId "List ID is required"
  end.

(** What a call without a token throws: the identifier is looked at
    before the token by [getTask], [deleteTask] and [duplicateList], and
    after it by [updateTask]. *)
Definition unauthenticated_failure (op : Operation) : string :=
  match op with
  | GetTask id | DeleteTask id =>
      if truthy id then auth_required else "Task ID is required"
  | DuplicateList listId _ =>
      if truthy listId then auth_required else "List ID is required"
  | _ => auth_required
  end.

(** The request an authenticated call sends once its validations have
    passed. *)
Definition request_of (host : Host) (token : string) (op : Operation)
  : Request :=
  let task id := API_BASE_URL ++ "/tasks/" ++ ToString host id in
  let patch id flag :=
    mkRequest (task id) PATCH (bearer token)
      (Some (json_object host [("is_complete", VBool flag)])) in
  match op with
  | CreateTask params =>
      mkRequest (API_BASE_URL ++ "/tasks") POST (bearer token)
        (Some (json_object host (supplied params)))
  | UpdateTask params =>
      mkRequest (task (get params "id")) PATCH (bearer token)
        (Some (json_object host (supplied (omit "id" params))))
  | GetTask id => mkRequest (task id) GET (bearer token) None
  | DeleteTask id => mkRequest (task id) DELETE (bearer token) None
  | ListTasks params =>
      mkRequest
        (API_BASE_URL ++ "/tasks"
         ++ match params with
            | Some o =>
                match supplied o with
                | [] => ""
                | present =>
                    "?" ++ join "&"
                      (map (fun kv =>
                              fst kv ++ "="
                              ++ encodeURIComponent (ToString host (snd kv)))
                         present)
                end
            | None => ""
            end)
        GET (bearer token) None
  | GetTaskLists =>
      mkRequest (API_BASE_URL ++ "/lists") GET (bearer token) None
  | CompleteTask id => patch id true
  | UncompleteTask id => patch id false
  | DuplicateList listId params =>
      mkRequest (API_BASE_URL ++ "/lists/" ++ ToString host listId
                 ++ "/duplicate")
        POST (bearer token)
        (Some (json_object host
                 (match params with
                  | Some o => supplied o
                  | None => []
                  end)))
  end.

(** What a call completes with once the reply to its request is known:
    the parsed body of a successful response, or the wrapped message of
    the failure. *)
Definition conclude (host : Host) (op : Operation) (reply : Reply)
  : Completion jsval :=
  let failed msg := Throw (Error (error_label op ++ ": " ++ msg)) in
  match reply with
  | TransportFailure msg => failed msg
  | HttpResponse _ (NotJson msg) => failed msg
  | HttpResponse s (JsonBody data) =>
      if status_ok s then Normal data
      else
        match data with
        | VUndefined =>
            failed "Cannot read properties of undefined (reading 'error')"
        | VNull => failed "Cannot read properties of null (reading 'error')"
        | VObject props =>
            if truthy (get props "error")
            then if ToString_throws (get props "error")
                 then failed "Cannot convert object to primitive value"
                 else failed (ToString host (get props "error"))
            else failed (generic_failure op)
        | _ => failed (generic_failure op)
        end
  end.

(* ===================================================================== *)
(** ** A host for the examples *)
(* ===================================================================== *)

(** Integral Numbers in decimal, as the engine prints them below 1e21;
    the examples render no other finite Number. *)
Definition example_number (n : jsnum) : string :=
  match n with
  | Finite q => NilZero.string_of_int (Z.to_int (Qnum (Qred q)))
  | NaN => "NaN"
  | PosInfinity => "Infinity"
  | NegInfinity => "-Infinity"
  end.

(** The only date of the examples is the epoch, [new Date(0)], printed
    as a process in the UTC time zone prints it. *)
Definition example_host (reply : Request -> Reply) : Host :=
  {| Number_toString := example_number;
     Date_toISOString := fun _ => "1970-01-01T00:00:00.000Z";
     Date_toString := fun time =>
       match time with
       | Some _ =>
           "Thu Jan 01 1970 00:00:00 GMT+0000 (Coordinated Universal Time)"
       | None => "Invalid Date"
       end;
     remote := reply |}.

(** [godspeedApi], as [index.ts] sets it up. *)
Definition example_api : GodspeedAPI :=
  setAuthToken createGodspeedClient "secret".

Definition replies (status : Z) (data : jsval) (_ : Request) : Reply :=
  HttpResponse status (JsonBody data).

Definition task_T1 : jsval :=
  VObject [("id", VString "T1"); ("title", VString "Buy milk");
           ("list_id", VString "L1"); ("completed", VBool false)].


(* ===================================================================== *)
(** ** Start-up: where [index.ts] takes the token from *)
(* ===================================================================== *)

(** [s.substring(n)]. *)
Definition substring_from (n : nat) (s : string) : string :=
  String.substring n (String.length s - n) s.

(** The loop over [process.argv[2..]]: it stops at the first argument
    that is [--token] or [-t] and takes the argument after it
    ([undefined] when there is none), or that starts with [--token=] and
    takes what follows the [=]. *)
Fixpoint scan_token (args : list string) : option string :=
  match args with
  | [] => None
  | arg :: rest =>
      if String.eqb arg "--token" || String.eqb arg "-t" then hd_error rest
      else if String.prefix "--token=" arg then Some (substring_from 8 arg)
      else scan_token rest
  end.

Definition tokenArg (argv : list string) : option string :=
  scan_token (skipn 2 argv).

(** [a || b] on [string | undefined]: the empty string is falsy too. *)
Definition or_else (a b : option string) : option string :=
  match a with
  | Some s => if String.eqb s "" then b else a
  | None => b
  end.

(** [const token = tokenArg || process.env.GODSPEED_TOKEN]. *)
Definition token_of (argv : list string) (GODSPEED_TOKEN : option string)
  : option string :=
  or_else (tokenArg argv) GODSPEED_TOKEN.

(** How the process starts: it exits with a status and two lines on the
    standard error, or it goes on to serve with a client. *)
Inductive Startup : Type :=
| Exit (code : Z) (stderr : list string)
| Serving (godspeedApi : GodspeedAPI).

Definition missing_token : Startup :=
  Exit 1
    ["Error: GODSPEED_TOKEN environment variable or --token argument is required";
     "Usage: godspeed-mcp --token=YOUR_TOKEN or -t YOUR_TOKEN"].

(** [if (!token) { ...; process.exit(1); }
     const godspeedApi = new GodspeedAPI();
     godspeedApi.setAuthToken(token);] *)
Definition startup (argv : list string) (GODSPEED_TOKEN : option string)
  : Startup :=
  match token_of argv GODSPEED_TOKEN with
  | None => missing_token
  | Some token =>
      if String.eqb token "" then missing_token
      else Serving (setAuthToken createGodspeedClient token)
  end.

(* ===================================================================== *)
(** ** The earlier client and dispatcher: [src/godspeed.ts], [src/types.ts] *)
(* ===================================================================== *)

Module Legacy.

Section Client.

Variable host : Host.

Local Abbreviation ToString := (ToString host).
Local Abbreviation JSON_stringify := (JSON_stringify host).

Definition createTask (api : GodspeedAPI) (params : jsobject) : Eff jsval :=
  try_catch
    (headers <- getAuthHeaders api ;;
     response <- fetch host (API_BASE_URL ++ "/tasks") POST headers
                   (JSON_stringify (VObject params)) ;;
     settle host "Failed to create task" response)
    (rewrap "Create task error").

(** No validation here: the identifier goes into the path as it is. *)
Definition updateTask (api : GodspeedAPI) (params : jsobject) : Eff jsval :=
  try_catch
    (headers <- getAuthHeaders api ;;
     let id := get params "id" in
     let updateData := omit "id" params in
     response <- fetch host (API_BASE_URL ++ "/tasks/" ++ ToString id) PATCH
                   headers (JSON_stringify (VObject updateData)) ;;
     settle host "Failed to update task" response)
    (rewrap "Update task error").

Definition getTask (api : GodspeedAPI) (id : jsval) : Eff jsval :=
  try_catch
    (headers <- getAuthHeaders api ;;
     response <- fetch host (API_BASE_URL ++ "/tasks/" ++ ToString id) GET
                   headers None ;;
     settle host "Failed to get task" response)
    (rewrap "Get task error").

Definition deleteTask (api : GodspeedAPI) (id : jsval) : Eff jsval :=
  try_catch
    (headers <- getAuthHeaders api ;;
     response <- fetch host (API_BASE_URL ++ "/tasks/" ++ ToString id) DELETE
                   headers None ;;
     settle host "Failed to delete task" response)
    (rewrap "Delete task error").

Definition listTasks (api : GodspeedAPI) (params : option jsobject)
  : Eff jsval :=
  try_catch
    (headers <- getAuthHeaders api ;;
     response <- fetch host (listTasks_url host params) GET headers None ;;
     settle host "Failed to list tasks" response)
    (rewrap "List tasks error").

Definition getTaskLists (api : GodspeedAPI) : Eff jsval :=
  try_catch
    (headers <- getAuthHeaders api ;;
     response <- fetch host (API_BASE_URL ++ "/lists") GET headers None ;;
     settle host "Failed to get task lists" response)
    (rewrap "Get task lists error").

(** [return this.updateTask({ id, completed: true })]. *)
Definition completeTask (api : GodspeedAPI) (id : jsval) : Eff jsval :=
  updateTask api [("id", id); ("completed", VBool true)].

(** [return this.updateTask({ id, completed: false })]. *)
Definition uncompleteTask (api : GodspeedAPI) (id : jsval) : Eff jsval :=
  updateTask api [("id", id); ("completed", VBool false)].

End Client.

(** [src/types.ts]. *)
Definition CreateTaskParams : list TsProperty :=
  [required "title" ts_string;
   required "list_id" ts_string;
   optional "location" ts_string;
   optional "notes" ts_string;
   optional "due_at" ts_Date;
   optional "label_names" (ts_array ts_string)].

Definition UpdateTaskParams : list TsProperty :=
  [required "id" ts_string;
   optional "title" ts_string;
   optional "list_id" ts_string;
   optional "location" ts_string;
   optional "notes" ts_string;
   optional "due_at" ts_Date;
   optional "label_names" (ts_array ts_string);
   optional "completed" ts_boolean].

Definition ListTasksParams : list TsProperty :=
  [optional "page" ts_number;
   optional "page_size" ts_number;
   optional "list_id" ts_string;
   optional "completed" ts_boolean].

(** The tools of the earlier [index.ts]: there is no [duplicateList]. *)
Definition tools : list Tool :=
  [tool_listTasks; tool_getTask; tool_createTask; tool_updateTask;
   tool_deleteTask; tool_completeTask; tool_uncompleteTask;
   tool_getTaskLists].

Definition inputSchema (t : Tool) : Shape :=
  match t with
  | tool_listTasks =>
      [("page", z_optional (z_number []));
       ("page_size", z_optional (z_number []));
       ("list_id", z_optional z_string);
       ("completed", z_optional z_boolean)]
  | tool_createTask =>
      [("title", z_string);
       ("list_id", z_string);
       ("location", z_optional z_string);
       ("notes", z_optional z_string);
       ("due_at", z_optional z_date);
       ("label_names", z_optional (z_array z_string))]
  | tool_updateTask =>
      [("id", z_string);
       ("title", z_optional z_string);
       ("list_id", z_optional z_string);
       ("location", z_optional z_string);
       ("notes", z_optional z_string);
       ("due_at", z_optional z_date);
       ("label_names", z_optional (z_array z_string));
       ("completed", z_optional z_boolean)]
  | tool_getTaskLists => []
  | tool_duplicateList => []     (* not registered *)
  | _ => [("id", z_string)]      (* getTask, deleteTask, (un)completeTask *)
  end.

Definition client_inputs (t : Tool) : list TsProperty :=
  match t with
  | tool_listTasks => ListTasksParams
  | tool_createTask => CreateTaskParams
  | tool_updateTask => UpdateTaskParams
  | tool_getTaskLists => []
  | tool_duplicateList => []
  | _ => [required "id" ts_string]
  end.

(** The earlier start-up reads the environment only. *)
Definition startup (GODSPEED_TOKEN : option string) : Startup :=
  match GODSPEED_TOKEN with
  | None => Exit 1 ["Error: GODSPEED_TOKEN environment variable is required"]
  | Some token =>
      if String.eqb token ""
      then Exit 1 ["Error: GODSPEED_TOKEN environment variable is required"]
      else Serving (setAuthToken createGodspeedClient token)
  end.

(** The methods of the earlier class: all of the current one but
    [duplicateList]. *)
Definition invoke (host : Host) (api : GodspeedAPI) (op : Operation)
  : option (Eff jsval) :=
  match op with
  | CreateTask params => Some (createTask host api params)
  | UpdateTask params => Some (updateTask host api params)
  | GetTask id => Some (getTask host api id)
  | DeleteTask id => Some (deleteTask host api id)
  | ListTasks params => Some (listTasks host api params)
  | GetTaskLists => Some (getTaskLists host api)
  | CompleteTask id => Some (completeTask host api id)
  | UncompleteTask id => Some (uncompleteTask host api id)
  | DuplicateList _ _ => None
  end.

End Legacy.

(* ===================================================================== *)
(** ** What the handlers pass on *)
(* ===================================================================== *)

(** The call of the client that the handler of each tool makes with the
    parsed arguments. *)
Definition forwarded (t : Tool) (params : jsobject) : Operation :=
  match t with
  | tool_listTasks => ListTasks (Some params)
  | tool_getTask => GetTask (get params "id")
  | tool_createTask => CreateTask params
  | tool_updateTask => UpdateTask params
  | tool_deleteTask => DeleteTask (get params "id")
  | tool_completeTask => CompleteTask (get params "id")
  | tool_uncompleteTask => UncompleteTask (get params "id")
  | tool_getTaskLists => GetTaskLists
  | tool_duplicateList =>
      DuplicateList (get params "list_id")
        (if truthy (get params "name")
         then Some [("name", get params "name")] else None)
  end.

(** The arguments at which the loop of the start-up stops. *)
Definition is_token_flag (arg : string) : bool :=
  String.eqb arg "--token" || String.eqb arg "-t"
  || String.prefix "--token=" arg.

(* ===================================================================== *)
(** ** The first client: credentials and log-in on demand *)
(* ===================================================================== *)

(** The [godspeed.ts] that holds a user name and a password and fetches
    its token itself.  Its methods read and write [this.authToken], so
    they run on the token together with the request log. *)
Module Credentials.

(** [interface AuthCredentials]. *)
Record AuthCredentials : Type := mkCredentials {
  username : string;
  password : string
}.

(** [this.authToken] is declared [string | undefined] and assigned
    [data.token], whatever the response holds there. *)
Definition M (A : Type) : Type :=
  jsval -> Log -> Completion A * jsval * Log.

Definition retM {A} (a : A) : M A :=
  fun token log => (Normal a, token, log).

Definition throwM {A} (e : JsError) : M A :=
  fun token log => (Throw e, token, log).

Definition bindM {A B} (m : M A) (k : A -> M B) : M B :=
  fun token log =>
    match m token log with
    | (Normal a, token', log') => k a token' log'
    | (Throw e, token', log') => (Throw e, token', log')
    end.

Definition try_catchM {A} (m : M A) (h : JsError -> M A) : M A :=
  fun token log =>
    match m token log with
    | (Normal a, token', log') => (Normal a, token', log')
    | (Throw e, token', log') => h e token' log'
    end.

(** A computation that does not touch the token. *)
Definition lift {A} (m : Eff A) : M A :=
  fun token log => let (c, log') := m log in (c, token, log').

(** [this.authToken]. *)
Definition read_token : M jsval :=
  fun token log => (Normal token, token, log).

(** [this.authToken = value]. *)
Definition write_token (value : jsval) : M unit :=
  fun _ log => (Normal tt, value, log).

Declare Scope cred_scope.
Notation "x <- m ;; k" := (bindM m (fun x => k))
  (at level 61, m at next level, right associativity) : cred_scope.
Notation "m ;;; k" := (bindM m (fun _ => k))
  (at level 61, right associativity) : cred_scope.
Local Open Scope cred_scope.

(** [data.token], read like [data.error]. *)
Definition read_data_token (data : jsval) : Eff jsval :=
  match data with
  | VUndefined =>
      throw (Error "Cannot read properties of undefined (reading 'token')")
  | VNull =>
      throw (Error "Cannot read properties of null (reading 'token')")
  | VObject props => ret (get props "token")
  | _ => ret VUndefined
  end.

Definition rewrapM {A} (label : string) (error : JsError) : M A :=
  throwM (Error (label ++ ": " ++ message error)).

Section Client.

Variable host : Host.
Variable credentials : AuthCredentials.

Local Abbreviation ToString := (ToString host).
Local Abbreviation JSON_stringify := (JSON_stringify host).

(** The request of [authenticate]: the credentials as a JSON body, and
    no [Authorization] header. *)
Definition login_request : Request :=
  mkRequest (API_BASE_URL ++ "/auth/login") POST
    [("Content-Type", "application/json")]
    (JSON_stringify
       (VObject [("username", VString (username credentials));
                 ("password", VString (password credentials))])).

Definition authenticate : M jsval :=
  try_catchM
    (response <- lift (fetch host (url login_request) (method login_request)
                         (headers login_request) (body login_request)) ;;
     data <- lift (json response) ;;
     (if negb (ok response) then
        e <- lift (read_error data) ;;
        error <- lift (new_Error host
                         (if truthy e then e
                          else VString "Authentication failed")) ;;
        throwM error
      else retM tt) ;;;
     value <- lift (read_data_token data) ;;
     write_token value ;;;
     token <- read_token ;;
     if negb (truthy token)
     then throwM (Error "Authentication token is missing from response")
     else retM token)
    (rewrapM "Authentication error").

(** [if (!this.authToken) { await this.authenticate(); }
     return { 'Authorization': `Bearer ${this.authToken}`, ... };] *)
Definition getAuthHeaders : M (list (string * string)) :=
  token <- read_token ;;
  (if negb (truthy token) then authenticate ;;; retM tt else retM tt) ;;;
  token <- read_token ;;
  retM (bearer (ToString token)).

(** The body every method shares:
    [try { const headers = await this.getAuthHeaders();
           const response = await fetch(url, { method, headers, body });
           ... }
     catch (error) { throw new Error(`<label>: ${error.message}`); }] *)
Definition call (label generic u : string) (m : Method) (b : option string)
  : M jsval :=
  try_catchM
    (headers <- getAuthHeaders ;;
     response <- lift (fetch host u m headers b) ;;
     lift (settle host generic response))
    (rewrapM label).

Definition createTask (params : jsobject) : M jsval :=
  call "Create task error" "Failed to create task"
    (API_BASE_URL ++ "/tasks") POST (JSON_stringify (VObject params)).

Definition updateTask (params : jsobject) : M jsval :=
  let id := get params "id" in
  let updateData := omit "id" params in
  call "Update task error" "Failed to update task"
    (API_BASE_URL ++ "/tasks/" ++ ToString id) PATCH
    (JSON_stringify (VObject updateData)).

Definition getTask (id : jsval) : M jsval :=
  call "Get task error" "Failed to get task"
    (API_BASE_URL ++ "/tasks/" ++ ToString id) GET None.

Definition deleteTask (id : jsval) : M jsval :=
  call "Delete task error" "Failed to delete task"
    (API_BASE_URL ++ "/tasks/" ++ ToString id) DELETE None.

Definition listTasks (params : option jsobject) : M jsval :=
  call "List tasks error" "Failed to list tasks"
    (listTasks_url host params) GET None.

Definition getTaskLists : M jsval :=
  call "Get task lists error" "Failed to get task lists"
    (API_BASE_URL ++ "/lists") GET None.

Definition completeTask (id : jsval) : M jsval :=
  updateTask [("id", id); ("completed", VBool true)].

Definition uncompleteTask (id : jsval) : M jsval :=
  updateTask [("id", id); ("completed", VBool false)].

(** The methods by the call they answer; this client has no
    [duplicateList]. *)
Definition run (op : Operation) : option (M jsval) :=
  match op with
  | CreateTask params => Some (createTask params)
  | UpdateTask params => Some (updateTask params)
  | GetTask id => Some (getTask id)
  | DeleteTask id => Some (deleteTask id)
  | ListTasks params => Some (listTasks params)
  | GetTaskLists => Some getTaskLists
  | CompleteTask id => Some (completeTask id)
  | UncompleteTask id => Some (uncompleteTask id)
  | DuplicateList _ _ => None
  end.


(** [setAuthToken(token)]. *)
Definition setAuthToken (token : string) : M unit :=
  write_token (VString token).

(** The token that a reply to the log-in request provides: the [token]
    of a JSON object sent with a status in 200-299, if it is truthy. *)
Definition login_token (reply : Reply) : option jsval :=
  match reply with
  | HttpResponse s (JsonBody (VObject props)) =>
      if status_ok s && truthy (get props "token")
      then Some (get props "token") else None
  | _ => None
  end.

(** What [authenticate] completes with and leaves in [this.authToken],
    by the reply to its request. *)
Definition login_outcome (token : jsval) (reply : Reply)
  : Completion jsval * jsval :=
  let failed msg := Throw (Error ("Authentication error: " ++ msg)) in
  let missing := failed "Authentication token is missing from response" in
  match reply with
  | TransportFailure msg => (failed msg, token)
  | HttpResponse _ (NotJson msg) => (failed msg, token)
  | HttpResponse s (JsonBody data) =>
      if status_ok s then
        match data with
        | VUndefined =>
            (failed "Cannot read properties of undefined (reading 'token')",
             token)
        | VNull =>
            (failed "Cannot read properties of null (reading 'token')",
             token)
        | VObject props =>
            if truthy (get props "token")
            then (Normal (get props "token"), get props "token")
            else (missing, get props "token")
        | _ => (missing, VUndefined)
        end
      else
        match data with
        | VUndefined =>
            (failed "Cannot read properties of undefined (reading 'error')",
             token)
        | VNull =>
            (failed "Cannot read properties of null (reading 'error')",
             token)
        | VObject props =>
            (failed (if truthy (get props "error")
                     then if ToString_throws (get props "error")
                          then "Cannot convert object to primitive value"
                          else ToString (get props "error")
                     else "Authentication failed"), token)
        | _ => (failed "Authentication failed", token)
        end
  end.

(** The request of a method once the token is known. *)
Definition request_with (token : jsval) (op : Operation) : Request :=
  match op with
  | CompleteTask id =>
      request_of host (ToString token)
        (UpdateTask [("id", id); ("completed", VBool true)])
  | UncompleteTask id =>
      request_of host (ToString token)
        (UpdateTask [("id", id); ("completed", VBool false)])
  | _ => request_of host (ToString token) op
  end.

End Client.

End Credentials.
(* ===================================================================== *)
(** ** Serialisation and control-flow lemmas *)
(* ===================================================================== *)

Lemma serialize_defined host gap stepback v :
  is_undefined v = false ->
  exists value, SerializeJSONProperty host gap stepback v = Some value.
Proof.
  destruct v as [ | | b | [q | | | ] | s | [ms | ] | items | props]; simpl;
    intros H; try discriminate; eexists; reflexivity.
Qed.

Lemma serialize_undefined host gap stepback v :
  is_undefined v = true -> SerializeJSONProperty host gap stepback v = None.
Proof. destruct v; simpl; intros H; discriminate || reflexivity. Qed.

Lemma object_members_supplied host ser (o : jsobject) :
  (forall v, ser v = SerializeJSONProperty host "" "" v) ->
  object_members ser ":" o
  = map (fun kv =>
           QuoteJSONString (fst kv) ++ ":"
           ++ match SerializeJSONProperty host "" "" (snd kv) with
              | Some value => value
              | None => "null"
              end)
      (supplied o).
Proof.
  intros Hser. induction o as [ | [k v] o IH]; simpl; [reflexivity | ].
  rewrite Hser. unfold supplied in *. simpl.
  destruct (is_undefined v) eqn:Hv; simpl.
  - rewrite (serialize_undefined host "" "" v Hv). simpl. exact IH.
  - destruct (serialize_defined host "" "" v Hv) as [value Hvalue].
    rewrite Hvalue. simpl. f_equal. exact IH.
Qed.

Lemma JSON_stringify_object host (o : jsobject) :
  JSON_stringify host (VObject o) = Some (json_object host (supplied o)).
Proof.
  unfold JSON_stringify, json_object. simpl.
  rewrite (object_members_supplied host); [ | reflexivity].
  unfold bracket. destruct (map _ (supplied o)); reflexivity.
Qed.

Lemma getAuthHeaders_token api token log :
  authToken api = Some token -> token <> "" ->
  getAuthHeaders api log = (Normal (bearer token), log).
Proof.
  intros Htok Hne. unfold getAuthHeaders. rewrite Htok.
  destruct (String.eqb_spec token ""); [contradiction | reflexivity].
Qed.

Lemma getAuthHeaders_none api log :
  token_set api = false ->
  getAuthHeaders api log = (Throw (Error auth_required), log).
Proof.
  unfold token_set, getAuthHeaders. destruct (authToken api) as [token | ].
  - destruct (String.eqb token ""); [reflexivity | discriminate].
  - reflexivity.
Qed.

Lemma send_concludes host op u m h b log :
  try_catch
    (bind (fetch host u m h b) (settle host (generic_failure op)))
    (rewrap (error_label op)) log
  = (conclude host op (remote host (mkRequest u m h b)),
     (log ++ [mkRequest u m h b])%list).
Proof.
  unfold try_catch, bind, fetch, settle, json, ok, conclude, rewrap, throw, ret.
  destruct (remote host (mkRequest u m h b)) as [msg | s [data | msg]];
    simpl; try reflexivity.
  unfold bind, ret. destruct (status_ok s); simpl; [reflexivity | ].
  destruct data; simpl; try reflexivity.
  unfold new_Error, bind, throw, ret.
  destruct (truthy (get props "error")) eqn:Htruthy; [ | reflexivity].
  destruct (ToString_throws (get props "error")); [reflexivity | ].
  destruct (get props "error"); try reflexivity. discriminate Htruthy.
Qed.

Lemma try_bind_normal {A B} (m : Eff A) (k : A -> Eff B) h log a log' :
  m log = (Normal a, log') ->
  try_catch (bind m k) h log = try_catch (k a) h log'.
Proof. intros Hm. unfold try_catch, bind. rewrite Hm. reflexivity. Qed.

Lemma try_bind_throw {A B} (m : Eff A) (k : A -> Eff B) h log e log' :
  m log = (Throw e, log') ->
  try_catch (bind m k) h log = h e log'.
Proof. intros Hm. unfold try_catch, bind. rewrite Hm. reflexivity. Qed.

Lemma try_throw_if {B} cond msg (k : unit -> Eff B) h log :
  try_catch (bind (throw_if cond msg) k) h log
  = if cond then h (Error msg) log else try_catch (k tt) h log.
Proof. destruct cond; reflexivity. Qed.

Lemma append_empty (p s : string) : p ++ s = "" -> p = "".
Proof. destruct p; [reflexivity | discriminate]. Qed.

Lemma join_nonempty sep p rest : p <> "" -> join sep (p :: rest) <> "".
Proof.
  intros Hp Hjoin. apply Hp. destruct rest as [ | p' rest]; simpl in Hjoin.
  - exact Hjoin.
  - exact (append_empty _ _ Hjoin).
Qed.

Lemma pair_nonempty k value : k ++ "=" ++ value <> "".
Proof. destruct k; discriminate. Qed.

Lemma listTasks_url_supplied host params :
  listTasks_url host params
  = url (request_of host "" (ListTasks params)).
Proof.
  unfold listTasks_url, queryParams, request_of, url. f_equal.
  destruct params as [o | ]; [ | reflexivity].
  fold (supplied o). destruct (supplied o) as [ | kv present] eqn:Hs.
  - reflexivity.
  - rewrite <- Hs.
    destruct (String.eqb_spec
                (join "&"
                   (map (fun kv0 => fst kv0 ++ "="
                           ++ encodeURIComponent (ToString host (snd kv0)))
                      (supplied o))) "") as [Hempty | _].
    + exfalso. rewrite Hs in Hempty. simpl map in Hempty.
      exact (join_nonempty _ _ _ (pair_nonempty _ _) Hempty).
    + reflexivity.
Qed.

Ltac authenticated Htok Hne :=
  erewrite try_bind_normal
    by (apply getAuthHeaders_token; [exact Htok | exact Hne]).

Lemma updateTask_authenticated host api token params log :
  authToken api = Some token -> token <> "" ->
  updateTask host api params log =
  match first_failure (update_checks host params) with
  | Some msg => (Throw (Error ("Update task error: " ++ msg)), log)
  | None =>
      (conclude host (UpdateTask params)
         (remote host (request_of host token (UpdateTask params))),
       (log ++ [request_of host token (UpdateTask params)])%list)
  end.
Proof.
  intros Htok Hne. unfold updateTask. authenticated Htok Hne.
  unfold update_checks, first_failure, duration_rejected.
  repeat (rewrite try_throw_if;
          match goal with
          | |- (if ?c then _ else _) = _ =>
              destruct c; [reflexivity | ]
          end).
  cbv zeta. rewrite JSON_stringify_object.
  apply (@send_concludes host (UpdateTask params)).
Qed.

Lemma invoke_authenticated host api token op log :
  authToken api = Some token -> token <> "" ->
  invoke host api op log =
  match local_failure host op with
  | Some msg => (Throw (Error (error_label op ++ ": " ++ msg)), log)
  | None =>
      (conclude host op (remote host (request_of host token op)),
       (log ++ [request_of host token op])%list)
  end.
Proof.
  intros Htok Hne. destruct op; simpl invoke.
  - unfold createTask. authenticated Htok Hne.
    rewrite JSON_stringify_object.
    apply (@send_concludes host (CreateTask params)).
  - exact (@updateTask_authenticated host api token params log Htok Hne).
  - unfold getTask. rewrite try_throw_if. simpl. unfold id_failure.
    destruct (truthy id); simpl; [ | reflexivity].
    authenticated Htok Hne.
    apply (@send_concludes host (GetTask id)).
  - unfold deleteTask. rewrite try_throw_if. simpl. unfold id_failure.
    destruct (truthy id); simpl; [ | reflexivity].
    authenticated Htok Hne.
    apply (@send_concludes host (DeleteTask id)).
  - unfold listTasks. authenticated Htok Hne.
    rewrite listTasks_url_supplied.
    apply (@send_concludes host (ListTasks params)).
  - unfold getTaskLists. authenticated Htok Hne.
    apply (@send_concludes host GetTaskLists).
  - unfold completeTask.
    rewrite (@updateTask_authenticated host api token _ log Htok Hne).
    simpl. unfold id_failure. destruct (truthy id); reflexivity.
  - unfold uncompleteTask.
    rewrite (@updateTask_authenticated host api token _ log Htok Hne).
    simpl. unfold id_failure. destruct (truthy id); reflexivity.
  - unfold duplicateList. rewrite try_throw_if. simpl. unfold id_failure.
    destruct (truthy listId); simpl; [ | reflexivity].
    authenticated Htok Hne. rewrite JSON_stringify_object.
    destruct params;
      apply (@send_concludes host (DuplicateList listId _)).
Qed.

Lemma invoke_unauthenticated host api op log :
  token_set api = false ->
  invoke host api op log
  = (Throw (Error (error_label op ++ ": " ++ unauthenticated_failure op)),
     log).
Proof.
  intros Htok.
  pose proof (fun log => @getAuthHeaders_none api log Htok) as Hauth.
  destruct op; simpl invoke;
    unfold createTask, updateTask, getTask, deleteTask, listTasks,
      getTaskLists, completeTask, uncompleteTask, updateTask, duplicateList;
    try rewrite try_throw_if; simpl;
    try match goal with
        | |- (if negb (truthy ?id) then _ else _) = _ =>
            destruct (truthy id); simpl; [ | reflexivity]
        end;
    erewrite try_bind_throw by apply Hauth; reflexivity.
Qed.

(* ===================================================================== *)
(** ** The request log *)
(* ===================================================================== *)

Lemma skipn_length_app {A} (l extra : list A) :
  skipn (length l) (l ++ extra)%list = extra.
Proof. induction l as [ | x l IH]; simpl; [reflexivity | exact IH]. Qed.

Lemma issued_appended {A} (m : Eff A) log extra :
  snd (m log) = (log ++ extra)%list -> issued m log = extra.
Proof. intros H. unfold issued. rewrite H. apply skipn_length_app. Qed.

Lemma issued_nothing {A} (m : Eff A) log :
  snd (m log) = log -> issued m log = [].
Proof.
  intros H. apply issued_appended. rewrite H. symmetry. apply app_nil_r.
Qed.

Lemma token_set_true api :
  token_set api = true ->
  exists token, authToken api = Some token /\ token <> "".
Proof.
  unfold token_set. destruct (authToken api) as [token | ]; [ | discriminate].
  destruct (String.eqb_spec token ""); [discriminate | ].
  intros _. exists token. split; [reflexivity | assumption].
Qed.

(* ===================================================================== *)
(** ** Authentication *)
(* ===================================================================== *)

(** C2.  Whatever the operation ([createTask], [updateTask], [getTask],
    [deleteTask], [listTasks], [getTaskLists], [completeTask],
    [uncompleteTask], [duplicateList]) and whatever its arguments, a client
    on which no token has been set (or only the empty one) throws the
    wrapped failure of that operation and hands nothing to [fetch]: the
    request log comes back as it was. *)
Theorem no_token_no_request host api op log :
  token_set api = false ->
  exists reason,
    invoke host api op log
    = (Throw (Error (error_label op ++ ": " ++ reason)), log)
    /\ issued (invoke host api op) log = []
    /\ (reason = auth_required
        \/ reason = "Task ID is required"
        \/ reason = "List ID is required").
Proof.
  intros Htok. exists (unauthenticated_failure op).
  pose proof (@invoke_unauthenticated host api op log Htok) as Hrun.
  split; [exact Hrun | split].
  - apply issued_nothing. rewrite Hrun. reflexivity.
  - destruct op; simpl; auto;
      match goal with |- context [truthy ?v] => destruct (truthy v) end; auto.
Qed.

Lemma no_token_no_request_witness :
  token_set createGodspeedClient = false
  /\ exists reason,
       invoke (example_host (replies 200 task_T1)) createGodspeedClient
         (CreateTask [("title", VString "Buy milk")]) []
       = (Throw (Error ("Create task error: " ++ reason)), [])
       /\ issued (invoke (example_host (replies 200 task_T1))
                    createGodspeedClient
                    (CreateTask [("title", VString "Buy milk")])) [] = []
       /\ (reason = auth_required
           \/ reason = "Task ID is required"
           \/ reason = "List ID is required").
Proof.
  split; [reflexivity | ].
  exact (@no_token_no_request (example_host (replies 200 task_T1))
           createGodspeedClient (CreateTask [("title", VString "Buy milk")])
           [] eq_refl).
Defined.

(* ===================================================================== *)
(** ** Completion *)
(* ===================================================================== *)

(** The request [updateTask] sends for [{ id, is_complete: flag }]. *)
Lemma completion_request host api id flag log :
  issued (updateTask host api [("id", id); ("is_complete", VBool flag)]) log
  = match authToken api with
    | Some token =>
        if negb (String.eqb token "") && truthy id
        then [mkRequest (API_BASE_URL ++ "/tasks/" ++ ToString host id)
                PATCH (bearer token)
                (Some ("{" ++ QuoteJSONString "is_complete" ++ ":"
                       ++ (if flag then "true" else "false") ++ "}"))]
        else []
    | None => []
    end.
Proof.
  destruct (token_set api) eqn:Hset.
  - destruct (token_set_true api Hset) as [token [Htok Hne]].
    rewrite Htok.
    destruct (String.eqb_spec token ""); [contradiction | ]. simpl negb.
    apply issued_appended.
    rewrite (@updateTask_authenticated host api token _ log Htok Hne).
    simpl. destruct (truthy id); simpl.
    + destruct flag; reflexivity.
    + symmetry. apply app_nil_r.
  - pose proof (@invoke_unauthenticated host api
                  (UpdateTask [("id", id); ("is_complete", VBool flag)])
                  log Hset) as Hrun.
    simpl invoke in Hrun.
    rewrite issued_nothing by (rewrite Hrun; reflexivity).
    unfold token_set in Hset. destruct (authToken api) as [token | ];
      [ | reflexivity].
    destruct (String.eqb token ""); [reflexivity | discriminate].
Qed.

(** C6.  [completeTask(id)] is [updateTask({ id, is_complete: true })] and
    [uncompleteTask(id)] is [updateTask({ id, is_complete: false })]: the
    same completion (value or failure) and the same log, for every client,
    identifier and remote.  Each sends, when the client has a token and the
    identifier is there, one PATCH to [/tasks/<id>] whose body holds the
    completion flag and nothing else, and sends nothing otherwise; the two
    requests differ in the flag only. *)
Theorem complete_is_update host api id log :
  completeTask host api id log
  = updateTask host api [("id", id); ("is_complete", VBool true)] log
  /\ uncompleteTask host api id log
     = updateTask host api [("id", id); ("is_complete", VBool false)] log
  /\ forall flag,
       issued (if flag : bool then completeTask host api id
               else uncompleteTask host api id) log
       = match authToken api with
         | Some token =>
             if negb (String.eqb token "") && truthy id
             then [mkRequest (API_BASE_URL ++ "/tasks/" ++ ToString host id)
                     PATCH (bearer token)
                     (Some ("{" ++ QuoteJSONString "is_complete" ++ ":"
                            ++ (if flag then "true" else "false") ++ "}"))]
             else []
         | None => []
         end.
Proof.
  split; [reflexivity | split; [reflexivity | ]].
  intros flag. rewrite <- (completion_request host api id flag log).
  destruct flag; reflexivity.
Qed.

Example completeTask_T1 :
  completeTask (example_host (replies 200 task_T1)) example_api
    (VString "T1") []
  = (Normal task_T1,
     [mkRequest "https://api.godspeedapp.com/tasks/T1" PATCH
        (bearer "secret")
        (Some ("{" ++ dquote ++ "is_complete" ++ dquote ++ ":true}"))]).
Proof. reflexivity. Qed.

(* ===================================================================== *)
(** ** Request construction *)
(* ===================================================================== *)

Lemma is_undefined_false v : is_undefined v = false <-> v <> VUndefined.
Proof.
  destruct v; simpl; split; intros H; try discriminate; try reflexivity.
  exfalso. apply H. reflexivity.
Qed.

Lemma In_supplied (o : jsobject) k v :
  In (k, v) (supplied o) <-> In (k, v) o /\ v <> VUndefined.
Proof.
  unfold supplied. rewrite filter_In. simpl.
  rewrite negb_true_iff, is_undefined_false. reflexivity.
Qed.

Lemma In_omit (o : jsobject) key k v :
  In (k, v) (omit key o) <-> In (k, v) o /\ k <> key.
Proof.
  unfold omit. rewrite filter_In. simpl.
  rewrite negb_true_iff, String.eqb_neq. reflexivity.
Qed.

(** The requests of an authenticated call: none when a validation fails,
    and the one of [request_of] otherwise. *)
Lemma issued_authenticated host api token op log :
  authToken api = Some token -> token <> "" ->
  issued (invoke host api op) log
  = match local_failure host op with
    | Some _ => []
    | None => [request_of host token op]
    end.
Proof.
  intros Htok Hne. apply issued_appended.
  rewrite (invoke_authenticated host api token op log Htok Hne).
  destruct (local_failure host op); simpl;
    [symmetry; apply app_nil_r | reflexivity].
Qed.

(** C4.  The body of the POST that [createTask] sends is the JSON object
    whose members are the properties of [params] that have a value, in
    their order, and no other.  [updateTask] sends at most one request, and
    when its validations pass exactly one: a PATCH whose path ends in the
    identifier and whose body is the JSON object of the properties that
    have a value and are not [id]. *)
Theorem request_body_is_supplied_fields host api token params log :
  authToken api = Some token -> token <> "" ->
  issued (createTask host api params) log
  = [mkRequest (API_BASE_URL ++ "/tasks") POST (bearer token)
       (Some (json_object host (supplied params)))]
  /\ (forall r, In r (issued (updateTask host api params) log) ->
        r = mkRequest
              (API_BASE_URL ++ "/tasks/" ++ ToString host (get params "id"))
              PATCH (bearer token)
              (Some (json_object host (supplied (omit "id" params)))))
  /\ (first_failure (update_checks host params) = None ->
      issued (updateTask host api params) log
      = [mkRequest
           (API_BASE_URL ++ "/tasks/" ++ ToString host (get params "id"))
           PATCH (bearer token)
           (Some (json_object host (supplied (omit "id" params))))])
  /\ (forall k v,
        In (k, v) (supplied params) <-> In (k, v) params /\ v <> VUndefined)
  /\ (forall k v,
        In (k, v) (supplied (omit "id" params))
        <-> In (k, v) params /\ v <> VUndefined /\ k <> "id").
Proof.
  intros Htok Hne.
  pose proof (issued_authenticated host api token (CreateTask params) log
                Htok Hne) as Hcreate.
  pose proof (issued_authenticated host api token (UpdateTask params) log
                Htok Hne) as Hupdate.
  unfold invoke, local_failure in Hcreate, Hupdate.
  split; [exact Hcreate | split; [ | split; [ | split]]].
  - intros r Hr. rewrite Hupdate in Hr.
    destruct (first_failure (update_checks host params));
      simpl in Hr; [contradiction | ].
    destruct Hr as [Hr | []]. symmetry. exact Hr.
  - intros Hvalid. rewrite Hupdate, Hvalid. reflexivity.
  - intros k v. apply In_supplied.
  - intros k v. rewrite In_supplied, In_omit. tauto.
Qed.

Lemma request_body_is_supplied_fields_witness :
  let host := example_host (replies 200 task_T1) in
  let params :=
    [("id", VString "T1"); ("title", VString "Buy oat milk");
     ("notes", VUndefined); ("duration_minutes", VNumber (Finite 15))] in
  (authToken example_api = Some "secret" /\ "secret" <> "")
  /\ issued (updateTask host example_api params) []
     = [mkRequest "https://api.godspeedapp.com/tasks/T1" PATCH
          (bearer "secret")
          (Some (json_object host
                   [("title", VString "Buy oat milk");
                    ("duration_minutes", VNumber (Finite 15))]))].
Proof.
  intros host params.
  assert (Hne : "secret" <> "") by discriminate.
  split; [split; [reflexivity | exact Hne] | ].
  exact (proj1 (proj2 (proj2
           (request_body_is_supplied_fields host example_api "secret"
              params [] eq_refl Hne))) eq_refl).
Defined.

Example createTask_body :
  issued (createTask (example_host (replies 201 task_T1)) example_api
            [("title", VString "Buy milk"); ("list_id", VString "L1")]) []
  = [mkRequest "https://api.godspeedapp.com/tasks" POST (bearer "secret")
       (Some ("{" ++ dquote ++ "title" ++ dquote ++ ":"
              ++ dquote ++ "Buy milk" ++ dquote ++ ","
              ++ dquote ++ "list_id" ++ dquote ++ ":"
              ++ dquote ++ "L1" ++ dquote ++ "}"))].
Proof. reflexivity. Qed.

Lemma hex_upper_unreserved c :
  uri_unreserved (hex_digit true (Nat.div (nat_of_ascii c) 16)) = true
  /\ uri_unreserved (hex_digit true (Nat.modulo (nat_of_ascii c) 16)) = true.
Proof.
  destruct c as [[] [] [] [] [] [] [] []]; vm_compute; split; reflexivity.
Qed.

(** What [encodeURIComponent] returns has unreserved characters and [%]
    only, so no [&], [=], [?] or [#] of a value reaches the query. *)
Lemma encodeURIComponent_escaped s c :
  In c (list_ascii_of_string (encodeURIComponent s)) ->
  uri_unreserved c = true \/ c = "%"%char.
Proof.
  induction s as [ | a s IH]; simpl; [contradiction | ].
  destruct (uri_unreserved a) eqn:Ha; simpl.
  - intros [Hc | Hc]; [subst c; left; exact Ha | exact (IH Hc)].
  - destruct (hex_upper_unreserved a) as [Hhigh Hlow].
    intros [Hc | [Hc | [Hc | Hc]]].
    + right. symmetry. exact Hc.
    + subst c. left. exact Hhigh.
    + subst c. left. exact Hlow.
    + exact (IH Hc).
Qed.

(** C5.  [listTasks] sends one GET.  Its URL is the base path followed,
    when some property of [params] has a value, by [?] and the [key=value]
    pairs of those properties joined by [&], each value converted to a
    string and escaped by [encodeURIComponent]; nothing follows the base
    path when no property has a value or [params] is omitted.  The record
    [{ list_id: "L1", completed: false }] gives
    [?list_id=L1&completed=false]. *)
Theorem listTasks_query_string host api token params log :
  authToken api = Some token -> token <> "" ->
  issued (listTasks host api params) log
  = [mkRequest
       (API_BASE_URL ++ "/tasks"
        ++ match params with
           | Some o =>
               match supplied o with
               | [] => ""
               | present =>
                   "?" ++ join "&"
                     (map (fun kv =>
                             fst kv ++ "="
                             ++ encodeURIComponent (ToString host (snd kv)))
                        present)
               end
           | None => ""
           end)
       GET (bearer token) None]
  /\ issued (listTasks host api
               (Some [("list_id", VString "L1"); ("completed", VBool false)]))
       log
     = [mkRequest
          "https://api.godspeedapp.com/tasks?list_id=L1&completed=false"
          GET (bearer token) None]
  /\ (forall s c,
        In c (list_ascii_of_string (encodeURIComponent s)) ->
        uri_unreserved c = true \/ c = "%"%char).
Proof.
  intros Htok Hne. split; [ | split].
  - exact (issued_authenticated host api token (ListTasks params) log
             Htok Hne).
  - exact (issued_authenticated host api token
             (ListTasks (Some [("list_id", VString "L1");
                               ("completed", VBool false)])) log Htok Hne).
  - exact encodeURIComponent_escaped.
Qed.

Lemma listTasks_query_string_witness :
  let host := example_host (replies 200 (VArray [task_T1])) in
  (authToken example_api = Some "secret" /\ "secret" <> "")
  /\ issued (listTasks host example_api
               (Some [("status", VUndefined);
                      ("list_id", VString "inbox & later");
                      ("page", VNumber (Finite 2))])) []
     = [mkRequest
          "https://api.godspeedapp.com/tasks?list_id=inbox%20%26%20later&page=2"
          GET (bearer "secret") None].
Proof.
  intros host.
  assert (Hne : "secret" <> "") by discriminate.
  split; [split; [reflexivity | exact Hne] | ].
  exact (proj1
           (listTasks_query_string host example_api "secret"
              (Some [("status", VUndefined);
                     ("list_id", VString "inbox & later");
                     ("page", VNumber (Finite 2))]) [] eq_refl Hne)).
Defined.

(** The client call each handler makes with the parsed arguments. *)
Lemma handler_respond host api tool params :
  handler host api tool params
  = respond host
      (invoke host api
         match tool with
         | tool_listTasks => ListTasks (Some params)
         | tool_getTask => GetTask (get params "id")
         | tool_createTask => CreateTask params
         | tool_updateTask => UpdateTask params
         | tool_deleteTask => DeleteTask (get params "id")
         | tool_completeTask => CompleteTask (get params "id")
         | tool_uncompleteTask => UncompleteTask (get params "id")
         | tool_getTaskLists => GetTaskLists
         | tool_duplicateList =>
             DuplicateList (get params "list_id")
               (if truthy (get params "name")
                then Some [("name", get params "name")] else None)
         end).
Proof. destruct tool; reflexivity. Qed.

(** [respond] turns either completion of the client into a text block
    and leaves the log as the client left it. *)
Lemma respond_run host call log :
  respond host call log
  = (Normal (text_result
               match fst (call log) with
               | Normal result => JSON_stringify_pretty host result
               | Throw error => Some ("Error: " ++ message error)
               end),
     snd (call log)).
Proof.
  unfold respond, try_catch, bind, ret.
  destruct (call log) as [[result | error] log']; reflexivity.
Qed.



(* ===================================================================== *)
(** ** Local validation *)
(* ===================================================================== *)

(** Whatever the client, [updateTask] throws and sends nothing as soon as
    one of its validations fails. *)
Lemma update_validation_throws host api params log :
  existsb fst (update_checks host params) = true ->
  exists reason,
    updateTask host api params log
    = (Throw (Error ("Update task error: " ++ reason)), log).
Proof.
  intros Hfails. destruct (token_set api) eqn:Hset.
  - destruct (token_set_true api Hset) as [token [Htok Hne]].
    rewrite (updateTask_authenticated host api token params log Htok Hne).
    destruct (first_failure (update_checks host params)) as [msg | ] eqn:Hfirst.
    + exists msg. reflexivity.
    + exfalso. revert Hfails Hfirst.
      induction (update_checks host params) as [ | [fails msg] rest IH];
        simpl; [discriminate | ].
      destruct fails; simpl; [discriminate | exact IH].
  - exists auth_required.
    exact (invoke_unauthenticated host api (UpdateTask params) log Hset).
Qed.

Lemma check_fails host params fails msg :
  In (fails, msg) (update_checks host params) -> fails = true ->
  existsb fst (update_checks host params) = true.
Proof.
  intros Hin Hfails. apply existsb_exists. exists (fails, msg).
  split; [exact Hin | exact Hfails].
Qed.

(** C1 (as the code has it).  [updateTask] with both values of a date
    field truthy (a [Date] is, a string is unless it is empty), be it
    [due_at]/[timeless_due_at], [snoozed_until]/[timeless_snoozed_until]
    or [starts_at]/[timeless_starts_at], throws and sends nothing; on an
    authenticated client and with an identifier the message is the
    [Cannot specify both ...] of the first such pair. *)
Theorem updateTask_rejects_both_dates host api params log :
  (truthy (get params "due_at") = true
   /\ truthy (get params "timeless_due_at") = true)
  \/ (truthy (get params "snoozed_until") = true
      /\ truthy (get params "timeless_snoozed_until") = true)
  \/ (truthy (get params "starts_at") = true
      /\ truthy (get params "timeless_starts_at") = true) ->
  exists reason,
    updateTask host api params log
    = (Throw (Error ("Update task error: " ++ reason)), log)
    /\ issued (updateTask host api params) log = []
    /\ (token_set api = true -> truthy (get params "id") = true ->
        reason = "Cannot specify both due_at and timeless_due_at"
        \/ reason
           = "Cannot specify both snoozed_until and timeless_snoozed_until"
        \/ reason = "Cannot specify both starts_at and timeless_starts_at").
Proof.
  intros Hboth.
  assert (Hpair :
    truthy (get params "due_at") && truthy (get params "timeless_due_at")
    || truthy (get params "snoozed_until")
       && truthy (get params "timeless_snoozed_until")
    || truthy (get params "starts_at")
       && truthy (get params "timeless_starts_at") = true).
  { destruct Hboth as [[H1 H2] | [[H1 H2] | [H1 H2]]]; rewrite H1, H2; simpl;
      rewrite ?orb_true_r; reflexivity. }
  clear Hboth.
  assert (Hfinish : forall reason,
    updateTask host api params log
    = (Throw (Error ("Update task error: " ++ reason)), log) ->
    issued (updateTask host api params) log = []).
  { intros reason Hrun. apply issued_nothing. rewrite Hrun. reflexivity. }
  destruct (token_set api) eqn:Hset.
  - destruct (token_set_true api Hset) as [token [Htok Hne]].
    pose proof (updateTask_authenticated host api token params log Htok Hne)
      as Hrun.
    unfold update_checks, first_failure in Hrun.
    destruct (truthy (get params "id")); simpl negb in Hrun; cbv iota in Hrun.
    + destruct (truthy (get params "due_at")
                && truthy (get params "timeless_due_at"));
        [eexists; split; [exact Hrun | split; [exact (Hfinish _ Hrun) | auto]]
        | ].
      destruct (truthy (get params "snoozed_until")
                && truthy (get params "timeless_snoozed_until"));
        [eexists; split; [exact Hrun | split; [exact (Hfinish _ Hrun) | auto]]
        | ].
      destruct (truthy (get params "starts_at")
                && truthy (get params "timeless_starts_at"));
        [eexists; split; [exact Hrun | split; [exact (Hfinish _ Hrun) | auto]]
        | discriminate Hpair].
    + eexists. split; [exact Hrun | split; [exact (Hfinish _ Hrun) | ]].
      intros _ Hid. discriminate Hid.
  - pose proof (invoke_unauthenticated host api (UpdateTask params) log Hset)
      as Hrun.
    eexists. split; [exact Hrun | split; [exact (Hfinish _ Hrun) | ]].
    intros Htrue. discriminate Htrue.
Qed.

Lemma updateTask_rejects_both_dates_witness :
  let host := example_host (replies 200 task_T1) in
  let params :=
    [("id", VString "T1"); ("due_at", VDate (Some 0%Z));
     ("timeless_due_at", VString "2024-06-01")] in
  (truthy (get params "due_at") = true
   /\ truthy (get params "timeless_due_at") = true)
  /\ exists reason,
       updateTask host example_api params []
       = (Throw (Error ("Update task error: " ++ reason)), [])
       /\ issued (updateTask host example_api params) [] = []
       /\ (token_set example_api = true -> truthy (get params "id") = true ->
           reason = "Cannot specify both due_at and timeless_due_at"
           \/ reason
              = "Cannot specify both snoozed_until and timeless_snoozed_until"
           \/ reason
              = "Cannot specify both starts_at and timeless_starts_at").
Proof.
  intros host params. split; [split; reflexivity | ].
  exact (updateTask_rejects_both_dates host example_api params []
           (or_introl (conj eq_refl eq_refl))).
Defined.

(** C1 fails for [createTask]: with a due date and a timeless due date
    together, an authenticated [createTask] posts both to the remote and
    returns what the remote answers.  It also fails for an [updateTask]
    whose timeless value is the empty string, which passes for absent. *)
Lemma both_dates_are_sent :
  let host := example_host (replies 201 task_T1) in
  let created :=
    [("title", VString "Buy milk"); ("due_at", VDate (Some 0%Z));
     ("timeless_due_at", VString "2024-06-01")] in
  let updated :=
    [("id", VString "T1"); ("due_at", VDate (Some 0%Z));
     ("timeless_due_at", VString "")] in
  (truthy (get created "due_at") = true
   /\ truthy (get created "timeless_due_at") = true
   /\ createTask host example_api created []
      = (Normal task_T1,
         [mkRequest "https://api.godspeedapp.com/tasks" POST
            (bearer "secret") (Some (json_object host created))])
   /\ ~ (exists e, createTask host example_api created [] = (Throw e, [])))
  /\ (is_undefined (get updated "due_at") = false
      /\ is_undefined (get updated "timeless_due_at") = false
      /\ updateTask host example_api updated []
         = (Normal task_T1,
            [mkRequest "https://api.godspeedapp.com/tasks/T1" PATCH
               (bearer "secret")
               (Some (json_object host
                        [("due_at", VDate (Some 0%Z));
                         ("timeless_due_at", VString "")]))])).
Proof.
  intros host created updated. repeat split.
  intros [e He]. discriminate He.
Qed.

(** The strings the pattern accepts: four digits, a hyphen, two digits,
    a hyphen, two digits, and nothing else. *)
Lemma YYYY_MM_DD_shape s :
  anchored_match YYYY_MM_DD s = true <->
  exists y1 y2 y3 y4 m1 m2 d1 d2,
    s = String y1 (String y2 (String y3 (String y4 (String "-"
          (String m1 (String m2 (String "-"
             (String d1 (String d2 "")))))))))
    /\ forallb is_digit [y1; y2; y3; y4; m1; m2; d1; d2] = true.
Proof.
  unfold YYYY_MM_DD. split.
  - simpl.
    repeat (destruct s as [ | ? s]; simpl; [discriminate | ];
            match goal with
            | |- context [if is_digit ?c then _ else _] =>
                destruct (is_digit c) eqn:?; simpl; [ | discriminate]
            | |- context [if Ascii.eqb ?c ?d then _ else _] =>
                destruct (Ascii.eqb_spec c d); simpl; [subst | discriminate]
            end).
    intros Hend. apply String.eqb_eq in Hend. subst s.
    do 8 eexists. split; [reflexivity | ].
    simpl. repeat match goal with H : is_digit _ = true |- _ =>
                    rewrite H; clear H end.
    reflexivity.
  - intros (y1 & y2 & y3 & y4 & m1 & m2 & d1 & d2 & Hs & Hdigits).
    subst s. simpl in Hdigits.
    repeat (apply andb_true_iff in Hdigits;
            let H := fresh "H" in destruct Hdigits as [H Hdigits]).
    simpl.
    repeat (match goal with H : is_digit _ = true |- _ =>
              rewrite H; clear H end; simpl).
    reflexivity.
Qed.

(** C8 (as the code has it).  [updateTask] with a timeless field that is
    truthy (for a string: not empty) and does not have the shape
    [YYYY-MM-DD] throws and sends nothing. *)
Theorem updateTask_rejects_malformed_timeless host api params log field :
  In field
    ["timeless_due_at"; "timeless_snoozed_until"; "timeless_starts_at"] ->
  truthy (get params field) = true ->
  timeless_test host (get params field) = false ->
  exists reason,
    updateTask host api params log
    = (Throw (Error ("Update task error: " ++ reason)), log)
    /\ issued (updateTask host api params) log = [].
Proof.
  intros Hfield Htruthy Hshape.
  assert (Hfails : existsb fst (update_checks host params) = true).
  { apply (check_fails host params
             (truthy (get params field)
              && negb (timeless_test host (get params field)))
             (field ++ " must be formatted as YYYY-MM-DD")).
    - destruct Hfield as [Hf | [Hf | [Hf | []]]]; subst field;
        simpl; auto 10.
    - rewrite Htruthy, Hshape. reflexivity. }
  destruct (update_validation_throws host api params log Hfails) as [reason Hrun].
  exists reason. split; [exact Hrun | ].
  apply issued_nothing. rewrite Hrun. reflexivity.
Qed.

Lemma updateTask_rejects_malformed_timeless_witness :
  let host := example_host (replies 200 task_T1) in
  let params := [("id", VString "T1"); ("timeless_due_at", VString "1/6/24")] in
  (In "timeless_due_at"
     ["timeless_due_at"; "timeless_snoozed_until"; "timeless_starts_at"]
   /\ truthy (get params "timeless_due_at") = true
   /\ timeless_test host (get params "timeless_due_at") = false)
  /\ exists reason,
       updateTask host example_api params []
       = (Throw (Error ("Update task error: " ++ reason)), [])
       /\ issued (updateTask host example_api params) [] = [].
Proof.
  intros host params.
  split; [split; [left; reflexivity | split; reflexivity] | ].
  exact (updateTask_rejects_malformed_timeless host example_api params []
           "timeless_due_at" (or_introl eq_refl) eq_refl eq_refl).
Defined.

(** C8 fails for the empty string: it does not have the shape
    [YYYY-MM-DD], yet [updateTask] sends it. *)
Lemma updateTask_sends_empty_timeless :
  let host := example_host (replies 200 task_T1) in
  let params := [("id", VString "T1"); ("timeless_due_at", VString "")] in
  timeless_test host (get params "timeless_due_at") = false
  /\ updateTask host example_api params []
     = (Normal task_T1,
        [mkRequest "https://api.godspeedapp.com/tasks/T1" PATCH
           (bearer "secret")
           (Some ("{" ++ dquote ++ "timeless_due_at" ++ dquote ++ ":"
                  ++ dquote ++ dquote ++ "}"))])
  /\ ~ (exists e, updateTask host example_api params [] = (Throw e, [])).
Proof.
  intros host params. repeat split.
  intros [e He]. discriminate He.
Qed.

Lemma forallb_refuses {A} (f : A -> bool) (l : list A) x :
  In x l -> f x = false -> forallb f l = false.
Proof.
  intros Hin Hx. destruct (forallb f l) eqn:Hall; [ | reflexivity].
  rewrite forallb_forall in Hall. rewrite (Hall x Hin) in Hx. discriminate.
Qed.

(** The schema of [duration_minutes] accepts what the test of
    [updateTask] does not reject. *)
Lemma duration_schema_mirrors_check v :
  zod_accepts duration_schema v = negb (duration_rejected v).
Proof.
  unfold duration_schema, duration_rejected.
  destruct v as [ | | b | [q | | | ] | s | time | items | props];
    simpl; try reflexivity.
  rewrite andb_true_r, negb_orb, negb_involutive. f_equal.
  rewrite Z.leb_antisym. reflexivity.
Qed.

Lemma bad_duration_is_rejected n :
  Number_isInteger (VNumber n) = false \/ num_ltb0 n = true ->
  duration_rejected (VNumber n) = true.
Proof.
  unfold duration_rejected. simpl.
  intros [Hint | Hneg]; [rewrite Hint | rewrite Hneg];
    rewrite ?orb_true_r; reflexivity.
Qed.

(** A tool whose shape has a [duration_minutes] entry refuses arguments
    in which the duration is not a non-negative integer. *)
Lemma callTool_refuses_duration host api tool params log n :
  In ("duration_minutes", duration_schema) (inputSchema tool) ->
  get params "duration_minutes" = VNumber n ->
  Number_isInteger (VNumber n) = false \/ num_ltb0 n = true ->
  callTool host api tool (VObject params) log = (Normal InvalidParams, log).
Proof.
  intros Hentry Hget Hbad. unfold callTool, zod_object_parse.
  rewrite (forallb_refuses _ _ ("duration_minutes", duration_schema) Hentry).
  - reflexivity.
  - cbv beta. unfold fst, snd. rewrite Hget, duration_schema_mirrors_check.
    rewrite (bad_duration_is_rejected n Hbad). reflexivity.
Qed.

(** C9 (as the code has it).  With [duration_minutes] a negative or a
    non-integral Number ([NaN] and the infinities included), the client's
    [updateTask] throws and sends nothing, and a call of the [createTask]
    or of the [updateTask] tool is refused on its arguments, before the
    handler runs: no request is made. *)
Theorem bad_duration_rejected host api params log n :
  get params "duration_minutes" = VNumber n ->
  Number_isInteger (VNumber n) = false \/ num_ltb0 n = true ->
  (exists reason,
     updateTask host api params log
     = (Throw (Error ("Update task error: " ++ reason)), log))
  /\ issued (updateTask host api params) log = []
  /\ callTool host api tool_createTask (VObject params) log
     = (Normal InvalidParams, log)
  /\ callTool host api tool_updateTask (VObject params) log
     = (Normal InvalidParams, log).
Proof.
  intros Hget Hbad.
  assert (Hfails : existsb fst (update_checks host params) = true).
  { apply (check_fails host params
             (duration_rejected (get params "duration_minutes"))
             "duration_minutes must be a positive integer").
    - simpl. auto 10.
    - rewrite Hget. exact (bad_duration_is_rejected n Hbad). }
  destruct (update_validation_throws host api params log Hfails) as [reason Hrun].
  split; [exists reason; exact Hrun | split; [ | split]].
  - apply issued_nothing. rewrite Hrun. reflexivity.
  - apply (callTool_refuses_duration host api tool_createTask params log n);
      [simpl; auto 20 | exact Hget | exact Hbad].
  - apply (callTool_refuses_duration host api tool_updateTask params log n);
      [simpl; auto 20 | exact Hget | exact Hbad].
Qed.

Lemma bad_duration_rejected_witness :
  let host := example_host (replies 201 task_T1) in
  let params :=
    [("title", VString "Buy milk");
     ("duration_minutes", VNumber (Finite (-15)))] in
  (get params "duration_minutes" = VNumber (Finite (-15))
   /\ num_ltb0 (Finite (-15)) = true)
  /\ callTool host example_api tool_createTask (VObject params) []
     = (Normal InvalidParams, []).
Proof.
  intros host params. split; [split; reflexivity | ].
  exact (proj1 (proj2 (proj2
           (bad_duration_rejected host example_api params [] (Finite (-15))
              eq_refl (or_intror eq_refl))))).
Defined.

(** C9 fails for the client's [createTask], which makes no test of its
    own: called with a negative duration it posts it. *)
Lemma createTask_sends_negative_duration :
  let host := example_host (replies 201 task_T1) in
  let params :=
    [("title", VString "Buy milk");
     ("duration_minutes", VNumber (Finite (-15)))] in
  num_ltb0 (Finite (-15)) = true
  /\ createTask host example_api params []
     = (Normal task_T1,
        [mkRequest "https://api.godspeedapp.com/tasks" POST (bearer "secret")
           (Some ("{" ++ dquote ++ "title" ++ dquote ++ ":"
                  ++ dquote ++ "Buy milk" ++ dquote ++ ","
                  ++ dquote ++ "duration_minutes" ++ dquote ++ ":-15}"))])
  /\ ~ (exists e, createTask host example_api params [] = (Throw e, [])).
Proof.
  intros host params. repeat split.
  intros [e He]. discriminate He.
Qed.

Example an_hour_and_a_half :
  let params :=
    [("id", VString "T1"); ("duration_minutes", VNumber (Finite (3 # 2)))] in
  updateTask (example_host (replies 200 task_T1)) example_api params []
  = (Throw (Error
       "Update task error: duration_minutes must be a positive integer"),
     []).
Proof. reflexivity. Qed.

(* ===================================================================== *)
(** ** Declared argument shapes *)
(* ===================================================================== *)

(** C10 (as the code has it).  For every tool but [getTaskLists], the
    declared shape has the properties of the client operation's input, in
    the same order, each with the same name, the same optionality and the
    same type: in particular the values [start]/[end] of [location] and
    [incomplete]/[complete] of [status]; and whatever schema the shape
    declares for [duration_minutes] accepts exactly the values that the
    duration test of [updateTask] lets through, which the shapes of
    [createTask] and [updateTask] do declare.  [getTaskLists] is the
    exception: its operation takes no input, and its tool declares one
    required string, [random_string]. *)
Theorem shapes_mirror_client_inputs tool :
  tool <> tool_getTaskLists ->
  shape_mirrors (inputSchema tool) (client_inputs tool) = true
  /\ required_keys (inputSchema tool)
     = map prop_name
         (filter (fun p => negb (prop_optional p)) (client_inputs tool))
  /\ (forall schema,
        In ("duration_minutes", schema) (inputSchema tool) ->
        forall v, zod_accepts schema v = negb (duration_rejected v))
  /\ (tool = tool_createTask \/ tool = tool_updateTask ->
      exists schema, In ("duration_minutes", schema) (inputSchema tool))
  /\ client_inputs tool_getTaskLists = []
  /\ required_keys (inputSchema tool_getTaskLists) = ["random_string"].
Proof.
  intros Hnot.
  split; [ | split; [ | split; [ | split; [ | split]]]].
  - destruct tool; try reflexivity. contradiction Hnot. reflexivity.
  - destruct tool; try reflexivity. contradiction Hnot. reflexivity.
  - intros schema Hin.
    destruct tool; vm_compute in Hin;
      repeat match type of Hin with
             | _ \/ _ => destruct Hin as [Hin | Hin]
             | False => contradiction
             | _ = _ =>
                 first [ discriminate Hin
                       | injection Hin as <-;
                         exact duration_schema_mirrors_check ]
             end.
  - intros [-> | ->]; exists duration_schema; simpl; tauto.
  - reflexivity.
  - reflexivity.
Qed.

Lemma shapes_mirror_client_inputs_witness :
  tool_createTask <> tool_getTaskLists
  /\ shape_mirrors (inputSchema tool_createTask) CreateTaskParams = true
  /\ required_keys (inputSchema tool_createTask) = ["title"]
  /\ (forall v,
        zod_accepts (z_optional (z_number [z_int; z_nonnegative])) v
        = negb (duration_rejected v)).
Proof.
  assert (Hnot : tool_createTask <> tool_getTaskLists) by discriminate.
  split; [exact Hnot | ].
  destruct (shapes_mirror_client_inputs tool_createTask Hnot)
    as [Hmirror [Hrequired [Hduration _]]].
  split; [exact Hmirror | split; [exact Hrequired | ]].
  apply Hduration. simpl. tauto.
Defined.

(** C10 fails for [getTaskLists]: the operation takes no input, yet the
    tool declares a required argument, and a call without arguments is
    refused. *)
Lemma getTaskLists_requires_an_argument :
  client_inputs tool_getTaskLists = []
  /\ required_keys (inputSchema tool_getTaskLists) = ["random_string"]
  /\ required_keys (inputSchema tool_getTaskLists) <> []
  /\ shape_mirrors (inputSchema tool_getTaskLists)
       (client_inputs tool_getTaskLists) = false
  /\ callTool (example_host (replies 200 (VArray []))) example_api
       tool_getTaskLists (VObject []) []
     = (Normal InvalidParams, []).
Proof. repeat split. discriminate. Qed.

(* ===================================================================== *)
(** ** Failures *)
(* ===================================================================== *)

Lemma conclude_throws host op reply e :
  conclude host op reply = Throw e ->
  exists reason, message e = error_label op ++ ": " ++ reason.
Proof.
  unfold conclude.
  destruct reply as [msg | s [data | msg]];
    try (intros H; injection H as <-; eexists; reflexivity).
  destruct (status_ok s); [discriminate | ].
  destruct data; try (intros H; injection H as <-; eexists; reflexivity).
  destruct (truthy (get props "error"));
    [destruct (ToString_throws (get props "error")) | ];
    intros H; injection H as <-; eexists; reflexivity.
Qed.

(** Whatever a client operation throws carries the label of the
    operation. *)
Lemma invoke_throws_labelled host api op log e log' :
  invoke host api op log = (Throw e, log') ->
  exists reason, message e = error_label op ++ ": " ++ reason.
Proof.
  destruct (token_set api) eqn:Hset.
  - destruct (token_set_true api Hset) as [token [Htok Hne]].
    rewrite (invoke_authenticated host api token op log Htok Hne).
    destruct (local_failure host op) as [msg | ].
    + intros H. injection H as <- _. eexists. reflexivity.
    + intros H. injection H as H _. exact (conclude_throws host op _ e H).
  - rewrite (invoke_unauthenticated host api op log Hset).
    intros H. injection H as <- _. eexists. reflexivity.
Qed.

(** C3 (as the code has it).  A client operation that throws, throws
    [<label>: <reason>] with the label of the operation.  When the remote
    answers with a status outside 200-299, the reason is: for a body that
    is a JSON object, its [error] as a string when that is truthy (for a
    string: not empty), or the [TypeError] of the conversion when it has
    no string, and the operation's generic message when [error] is absent
    or falsy; for a body that is a JSON boolean, number, string or array,
    the generic message; for the body [null], the [TypeError] of reading
    [error] from it; for a body that is not JSON, the message of the
    parser.  A body that is not JSON fails the call in this way whatever
    the status, and when no response comes the reason is the message of
    the transport error.  A handler never throws: it returns one text
    block, holding the formatted result, or [Error: <message>] when the
    client threw; and the log is the one the client call left. *)
Theorem failures_are_uniform host api op log :
  (forall e log',
     invoke host api op log = (Throw e, log') ->
     exists reason, message e = error_label op ++ ": " ++ reason)
  /\ (forall token s body,
        authToken api = Some token -> token <> "" ->
        local_failure host op = None ->
        remote host (request_of host token op) = HttpResponse s body ->
        status_ok s = false ->
        fst (invoke host api op log)
        = Throw (Error (error_label op ++ ": "
                        ++ match body with
                           | JsonBody (VObject props) =>
                               if truthy (get props "error")
                               then if ToString_throws (get props "error")
                                    then "Cannot convert object to primitive value"
                                    else ToString host (get props "error")
                               else generic_failure op
                           | JsonBody VNull =>
                               "Cannot read properties of null (reading 'error')"
                           | JsonBody VUndefined =>
                               "Cannot read properties of undefined (reading 'error')"
                           | JsonBody _ => generic_failure op
                           | NotJson msg => msg
                           end)))
  /\ (forall token s msg,
        authToken api = Some token -> token <> "" ->
        local_failure host op = None ->
        remote host (request_of host token op) = HttpResponse s (NotJson msg) ->
        fst (invoke host api op log)
        = Throw (Error (error_label op ++ ": " ++ msg)))
  /\ (forall token msg,
        authToken api = Some token -> token <> "" ->
        local_failure host op = None ->
        remote host (request_of host token op) = TransportFailure msg ->
        fst (invoke host api op log)
        = Throw (Error (error_label op ++ ": " ++ msg)))
  /\ (forall call : Eff jsval,
        respond host call log
        = (Normal (text_result
                     match fst (call log) with
                     | Normal result => JSON_stringify_pretty host result
                     | Throw error => Some ("Error: " ++ message error)
                     end),
           snd (call log)))
  /\ (forall tool params,
        exists call, handler host api tool params = respond host call).
Proof.
  split; [ | split; [ | split; [ | split; [ | split]]]].
  - exact (invoke_throws_labelled host api op log).
  - intros token s body Htok Hne Hlocal Hreply Hstatus.
    rewrite (invoke_authenticated host api token op log Htok Hne).
    rewrite Hlocal, Hreply. unfold conclude.
    destruct body as [data | msg]; [ | reflexivity].
    rewrite Hstatus. simpl fst.
    destruct data; try reflexivity.
    destruct (truthy (get props "error")); [ | reflexivity].
    destruct (ToString_throws (get props "error")); reflexivity.
  - intros token s msg Htok Hne Hlocal Hreply.
    rewrite (invoke_authenticated host api token op log Htok Hne).
    rewrite Hlocal, Hreply. reflexivity.
  - intros token msg Htok Hne Hlocal Hreply.
    rewrite (invoke_authenticated host api token op log Htok Hne).
    rewrite Hlocal, Hreply. reflexivity.
  - intros call. apply respond_run.
  - intros tool params. eexists. apply handler_respond.
Qed.

Lemma failures_are_uniform_witness :
  let not_found := VObject [("error", VString "not found")] in
  let host := example_host (replies 404 not_found) in
  (authToken example_api = Some "secret" /\ "secret" <> ""
   /\ local_failure host (GetTask (VString "missing")) = None
   /\ status_ok 404 = false)
  /\ fst (getTask host example_api (VString "missing") [])
     = Throw (Error "Get task error: not found")
  /\ handler host example_api tool_getTask [("id", VString "missing")] []
     = (Normal (text_result (Some "Error: Get task error: not found")),
        [mkRequest "https://api.godspeedapp.com/tasks/missing" GET
           (bearer "secret") None]).
Proof.
  intros not_found host.
  assert (Hne : "secret" <> "") by discriminate.
  split; [repeat split; exact Hne | ].
  destruct (failures_are_uniform host example_api
              (GetTask (VString "missing")) [])
    as [_ [Hrejected [_ [_ [Hrespond _]]]]].
  split.
  - exact (Hrejected "secret" 404%Z
             (JsonBody (VObject [("error", VString "not found")]))
             eq_refl Hne eq_refl eq_refl eq_refl).
  - exact (Hrespond (getTask host example_api (VString "missing"))).
Defined.

(** C3 fails for an [error] that is there but empty: the failure does
    not carry it, it carries the generic message.  It fails as well for
    the body [null], which has no [error] and does not give the generic
    message, and for an [error] that has no string. *)
Lemma empty_error_gives_generic_message :
  let body := [("error", VString "")] in
  let host := example_host (replies 404 (VObject body)) in
  get body "error" = VString ""
  /\ fst (getTask host example_api (VString "missing") [])
     = Throw (Error "Get task error: Failed to get task")
  /\ fst (getTask host example_api (VString "missing") [])
     <> Throw (Error ("Get task error: " ++ ""))
  /\ handler host example_api tool_getTask [("id", VString "missing")] []
     = (Normal (text_result
                  (Some "Error: Get task error: Failed to get task")),
        [mkRequest "https://api.godspeedapp.com/tasks/missing" GET
           (bearer "secret") None])
  /\ fst (getTask (example_host (replies 500 VNull)) example_api
            (VString "missing") [])
     = Throw (Error ("Get task error: "
                     ++ "Cannot read properties of null (reading 'error')"))
  /\ fst (getTask
            (example_host
               (replies 500
                  (VObject [("error", VObject [("toString", VBool true)])])))
            example_api (VString "missing") [])
     = Throw (Error ("Get task error: "
                     ++ "Cannot convert object to primitive value")).
Proof. repeat split. discriminate. Qed.

Example created_task_is_returned :
  createTask (example_host (replies 201 task_T1)) example_api
    [("title", VString "Buy milk"); ("list_id", VString "L1")] []
  = (Normal task_T1,
     [request_of (example_host (replies 201 task_T1)) "secret"
        (CreateTask [("title", VString "Buy milk");
                     ("list_id", VString "L1")])]).
Proof. reflexivity. Qed.

(* ===================================================================== *)
(** ** Every operation of the client: requests and replies *)
(* ===================================================================== *)

Lemma request_of_headers host token op :
  headers (request_of host token op) = bearer token.
Proof. destruct op; reflexivity. Qed.

(** X1.  No request leaves the client without its token: whatever the
    operation, its arguments and the client, a request handed to [fetch]
    has the headers [Authorization: Bearer <token>] and
    [Content-Type: application/json], where [<token>] is the non-empty
    token of the client. *)
Theorem requests_carry_the_token host api op log r :
  In r (issued (invoke host api op) log) ->
  exists token,
    authToken api = Some token /\ token <> "" /\ headers r = bearer token.
Proof.
  intros Hr. destruct (token_set api) eqn:Hset.
  - destruct (token_set_true api Hset) as [token [Htok Hne]].
    exists token. split; [exact Htok | split; [exact Hne | ]].
    rewrite (issued_authenticated host api token op log Htok Hne) in Hr.
    destruct (local_failure host op); simpl in Hr; [contradiction | ].
    destruct Hr as [Hr | []]. subst r. apply request_of_headers.
  - rewrite issued_nothing in Hr; [contradiction | ].
    rewrite (invoke_unauthenticated host api op log Hset). reflexivity.
Qed.

Lemma requests_carry_the_token_witness :
  let host := example_host (replies 200 task_T1) in
  let r := mkRequest "https://api.godspeedapp.com/tasks/T1" DELETE
             (bearer "secret") None in
  In r (issued (deleteTask host example_api (VString "T1")) [])
  /\ exists token,
       authToken example_api = Some token /\ token <> ""
       /\ headers r = bearer token.
Proof.
  intros host r.
  assert (Hr : In r (issued (invoke host example_api
                               (DeleteTask (VString "T1"))) []))
    by (left; reflexivity).
  split; [exact Hr | ].
  exact (requests_carry_the_token host example_api
           (DeleteTask (VString "T1")) [] r Hr).
Defined.

(** X2.  A call never touches what is already on the log and hands at
    most one request to [fetch]: exactly one when the client has a token
    and the operation's own validation passes, none otherwise. *)
Theorem one_request_at_most host api op log :
  snd (invoke host api op log)
  = (log ++ issued (invoke host api op) log)%list
  /\ List.length (issued (invoke host api op) log)
     = if token_set api
       then match local_failure host op with
            | Some _ => 0%nat
            | None => 1%nat
            end
       else 0%nat.
Proof.
  destruct (token_set api) eqn:Hset.
  - destruct (token_set_true api Hset) as [token [Htok Hne]].
    rewrite (issued_authenticated host api token op log Htok Hne).
    rewrite (invoke_authenticated host api token op log Htok Hne).
    destruct (local_failure host op); simpl; split;
      try reflexivity. symmetry. apply app_nil_r.
  - rewrite issued_nothing;
      rewrite (invoke_unauthenticated host api op log Hset);
      simpl; [ | reflexivity].
    split; [symmetry; apply app_nil_r | reflexivity].
Qed.

(** X3.  Every operation returns the parsed body as it is when the
    status is anywhere in 200-299 and the body is JSON. *)
Theorem success_returns_the_body host api token op log s data :
  authToken api = Some token -> token <> "" ->
  local_failure host op = None ->
  remote host (request_of host token op) = HttpResponse s (JsonBody data) ->
  (200 <= s <= 299)%Z ->
  invoke host api op log
  = (Normal data, (log ++ [request_of host token op])%list).
Proof.
  intros Htok Hne Hlocal Hreply [Hlow Hhigh].
  rewrite (invoke_authenticated host api token op log Htok Hne).
  rewrite Hlocal, Hreply. unfold conclude, status_ok.
  rewrite (proj2 (Z.leb_le 200 s) Hlow), (proj2 (Z.leb_le s 299) Hhigh).
  reflexivity.
Qed.

Lemma success_returns_the_body_witness :
  let lists := VArray [VObject [("id", VString "L1");
                                ("name", VString "Inbox")]] in
  let host := example_host (replies 204 lists) in
  (authToken example_api = Some "secret" /\ "secret" <> ""
   /\ (200 <= 204 <= 299)%Z)
  /\ getTaskLists host example_api []
     = (Normal lists,
        [mkRequest "https://api.godspeedapp.com/lists" GET
           (bearer "secret") None]).
Proof.
  intros lists host.
  assert (Hne : "secret" <> "") by discriminate.
  assert (Hrange : (200 <= 204 <= 299)%Z) by lia.
  split; [split; [reflexivity | split; [exact Hne | exact Hrange]] | ].
  exact (success_returns_the_body host example_api "secret" GetTaskLists []
           204%Z lists eq_refl Hne eq_refl eq_refl Hrange).
Defined.

(** X4.  The body is parsed before the status is looked at: a response
    whose body is not JSON makes the operation throw the parser's message
    under its label, also when the status is a success (a 204 with an
    empty body, say). *)
Theorem unparseable_body_fails host api token op log s msg :
  authToken api = Some token -> token <> "" ->
  local_failure host op = None ->
  remote host (request_of host token op) = HttpResponse s (NotJson msg) ->
  invoke host api op log
  = (Throw (Error (error_label op ++ ": " ++ msg)),
     (log ++ [request_of host token op])%list).
Proof.
  intros Htok Hne Hlocal Hreply.
  rewrite (invoke_authenticated host api token op log Htok Hne).
  rewrite Hlocal, Hreply. reflexivity.
Qed.

Lemma unparseable_body_fails_witness :
  let no_content (_ : Request) :=
    HttpResponse 204 (NotJson "Unexpected end of JSON input") in
  let host := example_host no_content in
  (authToken example_api = Some "secret" /\ "secret" <> "")
  /\ deleteTask host example_api (VString "T1") []
     = (Throw (Error "Delete task error: Unexpected end of JSON input"),
        [mkRequest "https://api.godspeedapp.com/tasks/T1" DELETE
           (bearer "secret") None]).
Proof.
  intros no_content host.
  assert (Hne : "secret" <> "") by discriminate.
  split; [split; [reflexivity | exact Hne] | ].
  exact (unparseable_body_fails host example_api "secret"
           (DeleteTask (VString "T1")) [] 204%Z
           "Unexpected end of JSON input" eq_refl Hne eq_refl eq_refl).
Defined.

(** X5.  A rejected response whose JSON body is not an object: for
    [null] the read of [data.error] is itself the error, and its message
    is what the operation reports; for a string, a number, a boolean or
    an array the operation reports its generic message. *)
Theorem rejected_without_object host api token op log s data :
  authToken api = Some token -> token <> "" ->
  local_failure host op = None ->
  remote host (request_of host token op) = HttpResponse s (JsonBody data) ->
  status_ok s = false ->
  (data = VNull ->
   fst (invoke host api op log)
   = Throw (Error (error_label op
                   ++ ": Cannot read properties of null (reading 'error')")))
  /\ ((exists b, data = VBool b) \/ (exists n, data = VNumber n)
      \/ (exists t, data = VString t) \/ (exists items, data = VArray items) ->
      fst (invoke host api op log)
      = Throw (Error (error_label op ++ ": " ++ generic_failure op))).
Proof.
  intros Htok Hne Hlocal Hreply Hstatus.
  rewrite (invoke_authenticated host api token op log Htok Hne).
  rewrite Hlocal, Hreply. unfold conclude. rewrite Hstatus. split.
  - intros ->. reflexivity.
  - intros [[b ->] | [[n ->] | [[t ->] | [items ->]]]]; reflexivity.
Qed.

Lemma rejected_without_object_witness :
  let host := example_host (replies 500 VNull) in
  (authToken example_api = Some "secret" /\ "secret" <> ""
   /\ status_ok 500 = false)
  /\ fst (listTasks host example_api None [])
     = Throw (Error
         "List tasks error: Cannot read properties of null (reading 'error')").
Proof.
  intros host.
  assert (Hne : "secret" <> "") by discriminate.
  split; [split; [reflexivity | split; [exact Hne | reflexivity]] | ].
  exact (proj1 (rejected_without_object host example_api "secret"
                  (ListTasks None) [] 500%Z VNull
                  eq_refl Hne eq_refl eq_refl eq_refl) eq_refl).
Defined.

(** X6.  Which of two missing things is reported.  [getTask] and
    [deleteTask] look at the identifier first: without one they throw
    [Task ID is required] whether or not the client has a token.
    [updateTask], and with it [completeTask] and [uncompleteTask], look at
    the token first: on a client without a token they report the token,
    whatever the identifier. *)
Theorem identifier_or_token_first host api id params log :
  truthy id = false ->
  getTask host api id log
  = (Throw (Error "Get task error: Task ID is required"), log)
  /\ deleteTask host api id log
     = (Throw (Error "Delete task error: Task ID is required"), log)
  /\ (token_set api = false ->
      updateTask host api params log
      = (Throw (Error ("Update task error: " ++ auth_required)), log)
      /\ completeTask host api id log
         = (Throw (Error ("Update task error: " ++ auth_required)), log)
      /\ uncompleteTask host api id log
         = (Throw (Error ("Update task error: " ++ auth_required)), log)).
Proof.
  intros Hid. split; [ | split].
  - unfold getTask. rewrite try_throw_if, Hid. reflexivity.
  - unfold deleteTask. rewrite try_throw_if, Hid. reflexivity.
  - intros Hset. split; [ | split].
    + exact (invoke_unauthenticated host api (UpdateTask params) log Hset).
    + exact (invoke_unauthenticated host api (CompleteTask id) log Hset).
    + exact (invoke_unauthenticated host api (UncompleteTask id) log Hset).
Qed.

Lemma identifier_or_token_first_witness :
  let host := example_host (replies 200 task_T1) in
  truthy (VString "") = false
  /\ getTask host createGodspeedClient (VString "") []
     = (Throw (Error "Get task error: Task ID is required"), [])
  /\ completeTask host createGodspeedClient (VString "") []
     = (Throw (Error ("Update task error: " ++ auth_required)), []).
Proof.
  intros host. split; [reflexivity | ].
  destruct (identifier_or_token_first host createGodspeedClient (VString "")
              [] [] eq_refl) as [Hget [_ Hupdate]].
  split; [exact Hget | exact (proj1 (proj2 (Hupdate eq_refl)))].
Defined.

(** X7.  What [updateTask] lets through.  On a client with a token, an
    update that has an identifier, at most one truthy value in each of
    the three date pairs, timeless values that are falsy or have the shape
    [YYYY-MM-DD], and a duration that is absent or an integer not below
    zero (so zero too, though the message says positive) is not rejected:
    exactly one PATCH goes out. *)
Theorem well_formed_update_is_sent host api token params log :
  authToken api = Some token -> token <> "" ->
  truthy (get params "id") = true ->
  (truthy (get params "due_at") = false
   \/ truthy (get params "timeless_due_at") = false) ->
  (truthy (get params "snoozed_until") = false
   \/ truthy (get params "timeless_snoozed_until") = false) ->
  (truthy (get params "starts_at") = false
   \/ truthy (get params "timeless_starts_at") = false) ->
  (forall field,
     In field
       ["timeless_due_at"; "timeless_snoozed_until"; "timeless_starts_at"] ->
     truthy (get params field) = false
     \/ anchored_match YYYY_MM_DD (ToString host (get params field)) = true) ->
  (get params "duration_minutes" = VUndefined
   \/ exists q,
        get params "duration_minutes" = VNumber (Finite q)
        /\ Qden (Qred q) = 1%positive /\ (0 <= Qnum q)%Z) ->
  issued (updateTask host api params) log
  = [mkRequest
       (API_BASE_URL ++ "/tasks/" ++ ToString host (get params "id"))
       PATCH (bearer token)
       (Some (json_object host (supplied (omit "id" params))))].
Proof.
  intros Htok Hne Hid Hdue Hsnooze Hstart Htimeless Hduration.
  pose proof (issued_authenticated host api token (UpdateTask params) log
                Htok Hne) as Hissued.
  unfold invoke, local_failure in Hissued. rewrite Hissued. clear Hissued.
  assert (Hpair : forall a b, truthy a = false \/ truthy b = false ->
                              truthy a && truthy b = false).
  { intros a b [H | H]; rewrite H; [reflexivity | apply andb_false_r]. }
  assert (Hshape : forall field,
    In field
      ["timeless_due_at"; "timeless_snoozed_until"; "timeless_starts_at"] ->
    truthy (get params field)
    && negb (timeless_test host (get params field)) = false).
  { intros field Hfield. unfold timeless_test.
    destruct (Htimeless field Hfield) as [H | H]; rewrite H;
      [reflexivity | apply andb_false_r]. }
  assert (Hdur : duration_rejected (get params "duration_minutes") = false).
  { destruct Hduration as [H | [q [H [Hint Hsign]]]]; rewrite H;
      [reflexivity | ].
    unfold duration_rejected. simpl. rewrite Hint. simpl.
    apply Z.ltb_ge. exact Hsign. }
  unfold update_checks, first_failure.
  rewrite Hid, (Hpair _ _ Hdue), (Hpair _ _ Hsnooze), (Hpair _ _ Hstart).
  rewrite (Hshape "timeless_due_at") by (simpl; auto).
  rewrite (Hshape "timeless_snoozed_until") by (simpl; auto).
  rewrite (Hshape "timeless_starts_at") by (simpl; auto).
  rewrite Hdur. reflexivity.
Qed.

Lemma well_formed_update_is_sent_witness :
  let host := example_host (replies 200 task_T1) in
  let params :=
    [("id", VString "T1"); ("timeless_due_at", VString "2024-06-01");
     ("duration_minutes", VNumber (Finite 0))] in
  (authToken example_api = Some "secret" /\ "secret" <> "")
  /\ issued (updateTask host example_api params) []
     = [mkRequest "https://api.godspeedapp.com/tasks/T1" PATCH
          (bearer "secret")
          (Some (json_object host
                   [("timeless_due_at", VString "2024-06-01");
                    ("duration_minutes", VNumber (Finite 0))]))].
Proof.
  intros host params.
  assert (Hne : "secret" <> "") by discriminate.
  split; [split; [reflexivity | exact Hne] | ].
  refine (well_formed_update_is_sent host example_api "secret" params []
            eq_refl Hne eq_refl (or_introl eq_refl) (or_introl eq_refl)
            (or_introl eq_refl) _ _).
  - intros field [<- | [<- | [<- | []]]];
      [right; reflexivity | left; reflexivity | left; reflexivity].
  - right. exists 0%Q. split; [reflexivity | split; [reflexivity | ]].
    simpl. lia.
Defined.

(* ===================================================================== *)
(** ** Tool calls: from the arguments to the request *)
(* ===================================================================== *)

Lemma has_key_false_get (o : jsobject) k :
  has_key o k = false -> get o k = VUndefined.
Proof.
  induction o as [ | [k' v] o IH]; simpl; [reflexivity | ].
  destruct (String.eqb k' k); simpl; [discriminate | exact IH].
Qed.

Lemma get_defined_has_key (o : jsobject) k :
  is_undefined (get o k) = false -> has_key o k = true.
Proof.
  intros Hdefined. destruct (has_key o k) eqn:Hkey; [reflexivity | ].
  rewrite (has_key_false_get o k Hkey) in Hdefined. discriminate.
Qed.

(** The record a shape parses out of the arguments holds the same values
    as the record of all the keys of the shape, once the absent ones are
    left out. *)
Lemma supplied_parsed (shape : Shape) (data : jsobject) :
  supplied
    (flat_map
       (fun kt =>
          if has_key data (fst kt)
          then [(fst kt, get data (fst kt))] else [])
       shape)
  = supplied (map (fun kt => (fst kt, get data (fst kt))) shape).
Proof.
  unfold supplied. induction shape as [ | [k t] shape IH]; [reflexivity | ].
  cbn [flat_map map fst snd].
  destruct (has_key data k) eqn:Hkey.
  - cbn [app filter fst snd]. rewrite IH. reflexivity.
  - cbn [app filter fst snd].
    rewrite (has_key_false_get data k Hkey). cbn [is_undefined negb].
    exact IH.
Qed.

Lemma parsed_members (shape : Shape) (data params : jsobject) k v :
  zod_object_parse shape (VObject data) = Some params ->
  In (k, v) params ->
  In k (map fst shape) /\ v = get data k /\ has_key data k = true.
Proof.
  unfold zod_object_parse. destruct (forallb _ shape); [ | discriminate].
  intros Hparsed. injection Hparsed as <-.
  rewrite in_flat_map. intros [[k' t] [Hshape Hin]]. simpl in Hin.
  destruct (has_key data k') eqn:Hkey; [ | contradiction].
  destruct Hin as [Hin | []]. injection Hin as Hk Hv. subst k v.
  split; [ | split; [reflexivity | exact Hkey]].
  apply in_map_iff. exists (k', t). split; [reflexivity | exact Hshape].
Qed.

Lemma handler_forwards host api tool params :
  handler host api tool params
  = respond host (invoke host api (forwarded tool params)).
Proof. destruct tool; reflexivity. Qed.

(** An accepted tool call is the forwarded client call, its completion
    turned into a text block. *)
Lemma callTool_accepted host api tool args params log :
  zod_object_parse (inputSchema tool) args = Some params ->
  callTool host api tool args log
  = (Normal (Returned
       (text_result
          match fst (invoke host api (forwarded tool params) log) with
          | Normal result => JSON_stringify_pretty host result
          | Throw error => Some ("Error: " ++ message error)
          end)),
     snd (invoke host api (forwarded tool params) log)).
Proof.
  intros Hparsed. unfold callTool. rewrite Hparsed.
  unfold bind, ret. rewrite handler_forwards, respond_run. reflexivity.
Qed.

Lemma callTool_issued host api tool args params log :
  zod_object_parse (inputSchema tool) args = Some params ->
  issued (callTool host api tool args) log
  = issued (invoke host api (forwarded tool params)) log.
Proof.
  intros Hparsed. unfold issued.
  rewrite (callTool_accepted host api tool args params log Hparsed).
  reflexivity.
Qed.

(** X8.  The schema of an identifier is [z.string()], which the empty
    string satisfies: a call of the [getTask], [deleteTask],
    [completeTask] or [uncompleteTask] tool with [id: ""] reaches the
    client, which refuses it; the caller gets the text
    [Error: <label>: Task ID is required] and no request is made. *)
Theorem empty_id_reaches_the_client host api token tool args log :
  authToken api = Some token -> token <> "" ->
  In tool [tool_getTask; tool_deleteTask; tool_completeTask;
           tool_uncompleteTask] ->
  get args "id" = VString "" ->
  callTool host api tool (VObject args) log
  = (Normal (Returned
       (text_result
          (Some ("Error: "
                 ++ match tool with
                    | tool_getTask => "Get task error"
                    | tool_deleteTask => "Delete task error"
                    | _ => "Update task error"
                    end
                 ++ ": Task ID is required")))),
     log).
Proof.
  intros Htok Hne Htool Hid.
  assert (Hkey : has_key args "id" = true)
    by (apply get_defined_has_key; rewrite Hid; reflexivity).
  assert (Hparsed : zod_object_parse (inputSchema tool) (VObject args)
                    = Some [("id", VString "")]).
  { destruct Htool as [<- | [<- | [<- | [<- | []]]]];
      unfold zod_object_parse; simpl; rewrite Hid, Hkey; reflexivity. }
  rewrite (callTool_accepted host api tool (VObject args) _ log Hparsed).
  rewrite (invoke_authenticated host api token _ log Htok Hne).
  destruct Htool as [<- | [<- | [<- | [<- | []]]]]; reflexivity.
Qed.

Lemma empty_id_reaches_the_client_witness :
  let host := example_host (replies 200 task_T1) in
  (authToken example_api = Some "secret" /\ "secret" <> "")
  /\ callTool host example_api tool_deleteTask
       (VObject [("id", VString "")]) []
     = (Normal (Returned
          (text_result
             (Some "Error: Delete task error: Task ID is required"))),
        []).
Proof.
  intros host.
  assert (Hne : "secret" <> "") by discriminate.
  split; [split; [reflexivity | exact Hne] | ].
  exact (empty_id_reaches_the_client host example_api "secret"
           tool_deleteTask [("id", VString "")] [] eq_refl Hne
           (or_intror (or_introl eq_refl)) eq_refl).
Defined.

(** X9.  The [duplicateList] tool tests [name] for truthiness: with no
    name, or with the empty one, it calls the client without [params],
    and the body of the POST is the empty object. *)
Theorem duplicateList_tool_drops_empty_name host api token args l log :
  authToken api = Some token -> token <> "" ->
  get args "list_id" = VString l -> l <> "" ->
  get args "name" = VUndefined \/ get args "name" = VString "" ->
  issued (callTool host api tool_duplicateList (VObject args)) log
  = [mkRequest (API_BASE_URL ++ "/lists/" ++ l ++ "/duplicate") POST
       (bearer token) (Some "{}")].
Proof.
  intros Htok Hne Hlist Hl Hname.
  assert (Hkey : has_key args "list_id" = true)
    by (apply get_defined_has_key; rewrite Hlist; reflexivity).
  assert (Htruthy : truthy (VString l) = true).
  { simpl. destruct (String.eqb_spec l ""); [contradiction | reflexivity]. }
  assert (Hparsed : exists params,
    zod_object_parse (inputSchema tool_duplicateList) (VObject args)
    = Some params
    /\ get params "list_id" = VString l
    /\ truthy (get params "name") = false).
  { unfold zod_object_parse. simpl. rewrite Hlist, Hkey. simpl.
    destruct Hname as [Hname | Hname]; rewrite Hname; simpl;
      destruct (has_key args "name"); eexists;
      (split; [reflexivity | split; reflexivity]). }
  destruct Hparsed as [params [Hparsed [Hplist Hpname]]].
  rewrite (callTool_issued host api tool_duplicateList (VObject args)
             params log Hparsed).
  rewrite (issued_authenticated host api token _ log Htok Hne).
  simpl. rewrite Hplist, Hpname. unfold id_failure. rewrite Htruthy.
  reflexivity.
Qed.

Lemma duplicateList_tool_drops_empty_name_witness :
  let host := example_host (replies 201 task_T1) in
  (authToken example_api = Some "secret" /\ "secret" <> "" /\ "L1" <> "")
  /\ issued (callTool host example_api tool_duplicateList
               (VObject [("list_id", VString "L1"); ("name", VString "")]))
       []
     = [mkRequest "https://api.godspeedapp.com/lists/L1/duplicate" POST
          (bearer "secret") (Some "{}")].
Proof.
  intros host.
  assert (Hne : "secret" <> "") by discriminate.
  assert (Hl : "L1" <> "") by discriminate.
  split; [split; [reflexivity | split; [exact Hne | exact Hl]] | ].
  exact (duplicateList_tool_drops_empty_name host example_api "secret"
           [("list_id", VString "L1"); ("name", VString "")] "L1" []
           eq_refl Hne eq_refl Hl (or_intror eq_refl)).
Defined.

(** X10.  Arguments that the shape of a tool does not declare never
    reach the remote.  When the [createTask] or the [updateTask] tool
    accepts its arguments, the body of the request is the JSON object of
    the parsed record, and every member of it has a declared key and the
    value the caller gave under that key. *)
Theorem undeclared_arguments_are_dropped host api token tool args params log :
  authToken api = Some token -> token <> "" ->
  tool = tool_createTask \/ tool = tool_updateTask ->
  zod_object_parse (inputSchema tool) (VObject args) = Some params ->
  (forall r,
     In r (issued (callTool host api tool (VObject args)) log) ->
     body r
     = Some (json_object host
               (supplied match tool with
                         | tool_updateTask => omit "id" params
                         | _ => params
                         end)))
  /\ (forall k v,
        In (k, v) (supplied params) ->
        In k (map fst (inputSchema tool)) /\ v = get args k).
Proof.
  intros Htok Hne Htool Hparsed. split.
  - intros r.
    rewrite (callTool_issued host api tool (VObject args) params log Hparsed).
    rewrite (issued_authenticated host api token _ log Htok Hne).
    destruct (local_failure host (forwarded tool params));
      [intros [] | ].
    intros [<- | []]. destruct Htool as [-> | ->]; reflexivity.
  - intros k v Hin. apply In_supplied in Hin. destruct Hin as [Hin _].
    destruct (parsed_members _ _ _ _ _ Hparsed Hin) as [Hk [Hv _]].
    split; assumption.
Qed.

Lemma undeclared_arguments_are_dropped_witness :
  let host := example_host (replies 201 task_T1) in
  let args :=
    [("priority", VString "high"); ("title", VString "Buy milk");
     ("list_id", VString "L1")] in
  let sent :=
    mkRequest "https://api.godspeedapp.com/tasks" POST (bearer "secret")
      (Some (json_object host
               [("title", VString "Buy milk"); ("list_id", VString "L1")])) in
  (authToken example_api = Some "secret" /\ "secret" <> ""
   /\ In sent (issued (callTool host example_api tool_createTask
                         (VObject args)) []))
  /\ body sent
     = Some (json_object host
               [("title", VString "Buy milk"); ("list_id", VString "L1")]).
Proof.
  intros host args sent.
  assert (Hne : "secret" <> "") by discriminate.
  assert (Hsent : In sent (issued (callTool host example_api tool_createTask
                                     (VObject args)) []))
    by (left; reflexivity).
  split; [split; [reflexivity | split; [exact Hne | exact Hsent]] | ].
  exact (proj1 (undeclared_arguments_are_dropped host example_api "secret"
                  tool_createTask args
                  [("title", VString "Buy milk"); ("list_id", VString "L1")]
                  [] eq_refl Hne (or_introl eq_refl) eq_refl) sent Hsent).
Defined.

(** X11.  The [listTasks] tool sends its filters in the order in which
    the shape declares them ([status], [list_id], [updated_before],
    [updated_after]), whatever the order of the caller's arguments, and
    sends nothing else the caller put there. *)
Theorem listTasks_tool_declared_order host api token args params log :
  authToken api = Some token -> token <> "" ->
  zod_object_parse (inputSchema tool_listTasks) (VObject args) = Some params ->
  issued (callTool host api tool_listTasks (VObject args)) log
  = [mkRequest
       (API_BASE_URL ++ "/tasks"
        ++ match supplied [("status", get args "status");
                           ("list_id", get args "list_id");
                           ("updated_before", get args "updated_before");
                           ("updated_after", get args "updated_after")] with
           | [] => ""
           | present =>
               "?" ++ join "&"
                 (map (fun kv =>
                         fst kv ++ "="
                         ++ encodeURIComponent (ToString host (snd kv)))
                    present)
           end)
       GET (bearer token) None].
Proof.
  intros Htok Hne Hparsed.
  rewrite (callTool_issued host api tool_listTasks (VObject args) params log
             Hparsed).
  rewrite (issued_authenticated host api token _ log Htok Hne).
  unfold zod_object_parse in Hparsed.
  destruct (forallb _ (inputSchema tool_listTasks)); [ | discriminate].
  assert (Hparams :
    params
    = flat_map
        (fun kt =>
           if has_key args (fst kt)
           then [(fst kt, get args (fst kt))] else [])
        (inputSchema tool_listTasks))
    by (injection Hparsed as <-; reflexivity).
  unfold forwarded, local_failure, request_of.
  rewrite Hparams, (supplied_parsed (inputSchema tool_listTasks) args).
  reflexivity.
Qed.

Lemma listTasks_tool_declared_order_witness :
  let host := example_host (replies 200 (VArray [task_T1])) in
  let args :=
    [("updated_after", VString "2024-06-01"); ("limit", VNumber (Finite 5));
     ("status", VString "incomplete")] in
  (authToken example_api = Some "secret" /\ "secret" <> "")
  /\ issued (callTool host example_api tool_listTasks (VObject args)) []
     = [mkRequest
          "https://api.godspeedapp.com/tasks?status=incomplete&updated_after=2024-06-01"
          GET (bearer "secret") None].
Proof.
  intros host args.
  assert (Hne : "secret" <> "") by discriminate.
  split; [split; [reflexivity | exact Hne] | ].
  exact (listTasks_tool_declared_order host example_api "secret" args
           [("status", VString "incomplete");
            ("updated_after", VString "2024-06-01")] [] eq_refl Hne eq_refl).
Defined.

(** X12.  The date fields are declared [z.date()], which only a [Date]
    with a valid time satisfies: a tool call that gives such a field as
    anything else (the string or the number that JSON can carry, or an
    invalid date) is refused on its arguments, and nothing is sent. *)
Theorem only_dates_pass_for_dates host api tool field args log :
  In (field, z_optional z_date) (inputSchema tool) ->
  is_undefined (get args field) = false ->
  (forall ms, get args field <> VDate (Some ms)) ->
  callTool host api tool (VObject args) log = (Normal InvalidParams, log).
Proof.
  intros Hentry Hdefined Hdate. unfold callTool, zod_object_parse.
  rewrite (forallb_refuses _ _ (field, z_optional z_date) Hentry);
    [reflexivity | ].
  cbv beta. unfold fst, snd. simpl.
  destruct (get args field) as [ | | | | | [ms | ] | | ];
    try reflexivity; try discriminate.
  exfalso. exact (Hdate ms eq_refl).
Qed.

Lemma only_dates_pass_for_dates_witness :
  let host := example_host (replies 201 task_T1) in
  let args :=
    [("title", VString "Buy milk");
     ("due_at", VString "2024-06-01T09:00:00.000Z")] in
  (In ("due_at", z_optional z_date) (inputSchema tool_createTask)
   /\ is_undefined (get args "due_at") = false)
  /\ callTool host example_api tool_createTask (VObject args) []
     = (Normal InvalidParams, []).
Proof.
  intros host args.
  assert (Hentry : In ("due_at", z_optional z_date)
                     (inputSchema tool_createTask))
    by (simpl; auto 10).
  split; [split; [exact Hentry | reflexivity] | ].
  apply (only_dates_pass_for_dates host example_api tool_createTask "due_at"
           args [] Hentry eq_refl).
  intros ms Hms. discriminate Hms.
Defined.

(* ===================================================================== *)
(** ** Start-up *)
(* ===================================================================== *)

Lemma substring_whole s : String.substring 0 (String.length s) s = s.
Proof. induction s as [ | c s IH]; simpl; [ | rewrite IH]; reflexivity. Qed.

Lemma substring_after_flag v : substring_from 8 ("--token=" ++ v) = v.
Proof.
  unfold substring_from. simpl. rewrite Nat.sub_0_r. apply substring_whole.
Qed.

Lemma prefix_of_flag v : String.prefix "--token=" ("--token=" ++ v) = true.
Proof. simpl. destruct v; reflexivity. Qed.

Lemma scan_token_equals v rest :
  scan_token (("--token=" ++ v) :: rest) = Some v.
Proof.
  cbn [scan_token].
  assert (Hlong : String.eqb ("--token=" ++ v) "--token" = false)
    by reflexivity.
  assert (Hshort : String.eqb ("--token=" ++ v) "-t" = false)
    by reflexivity.
  rewrite Hlong, Hshort, prefix_of_flag, substring_after_flag. reflexivity.
Qed.

Lemma scan_token_skips before args :
  forallb (fun arg => negb (is_token_flag arg)) before = true ->
  scan_token (before ++ args)%list = scan_token args.
Proof.
  induction before as [ | arg before IH]; simpl; [reflexivity | ].
  intros Hnone. apply andb_true_iff in Hnone. destruct Hnone as [Harg Hrest].
  unfold is_token_flag in Harg. apply negb_true_iff in Harg.
  apply orb_false_iff in Harg. destruct Harg as [Hexact Hprefix].
  rewrite Hexact, Hprefix. exact (IH Hrest).
Qed.

Lemma startup_env_only env :
  startup [] env
  = match env with
    | Some token =>
        if String.eqb token "" then missing_token
        else Serving (setAuthToken createGodspeedClient token)
    | None => missing_token
    end.
Proof. destruct env; reflexivity. Qed.

Lemma startup_of_tokenArg argv env :
  startup argv env
  = match tokenArg argv with
    | Some token =>
        if String.eqb token "" then startup [] env
        else Serving (setAuthToken createGodspeedClient token)
    | None => startup [] env
    end.
Proof.
  unfold startup, token_of, or_else.
  destruct (tokenArg argv) as [token | ]; [ | reflexivity].
  destruct (String.eqb token "") eqn:Hempty; [reflexivity | ].
  rewrite Hempty. reflexivity.
Qed.

(** X13.  A process that gets past the start-up serves with a client
    whose token is set, to the non-empty string the start-up chose; so
    every call that a handler makes on it is an authenticated one: it
    fails before [fetch] only on the operation's own validation, and
    whatever it sends carries that token. *)
Theorem serving_client_is_authenticated argv env api :
  startup argv env = Serving api ->
  exists token,
    token_of argv env = Some token /\ token <> ""
    /\ authToken api = Some token
    /\ forall host op log,
         invoke host api op log
         = match local_failure host op with
           | Some msg =>
               (Throw (Error (error_label op ++ ": " ++ msg)), log)
           | None =>
               (conclude host op (remote host (request_of host token op)),
                (log ++ [request_of host token op])%list)
           end.
Proof.
  unfold startup. destruct (token_of argv env) as [token | ];
    [ | discriminate].
  destruct (String.eqb_spec token ""); [discriminate | ].
  intros Hserving. injection Hserving as <-. exists token.
  split; [reflexivity | split; [assumption | split; [reflexivity | ]]].
  intros host op log. apply invoke_authenticated; [reflexivity | assumption].
Qed.

Lemma serving_client_is_authenticated_witness :
  let argv := ["node"; "godspeed-mcp"; "--token=secret"] in
  startup argv None = Serving example_api
  /\ exists token,
       token_of argv None = Some token /\ token <> ""
       /\ authToken example_api = Some token.
Proof.
  intros argv. split; [reflexivity | ].
  destruct (serving_client_is_authenticated argv None example_api eq_refl)
    as [token [Hchosen [Hne [Htok _]]]].
  exists token. split; [exact Hchosen | split; [exact Hne | exact Htok]].
Defined.

(** X14.  The first token flag on the command line decides.  When no
    argument before it is a token flag and the value is not empty, the
    token is the argument after [--token] or [-t], taken as it is, or
    what follows the [=] of [--token=...]; the arguments after that and
    the environment variable are not looked at. *)
Theorem first_token_flag_decides node script before value rest env :
  forallb (fun arg => negb (is_token_flag arg)) before = true ->
  value <> "" ->
  startup (node :: script :: before ++ "--token" :: value :: rest) env
  = Serving (setAuthToken createGodspeedClient value)
  /\ startup (node :: script :: before ++ "-t" :: value :: rest) env
     = Serving (setAuthToken createGodspeedClient value)
  /\ startup (node :: script :: before ++ ("--token=" ++ value) :: rest) env
     = Serving (setAuthToken createGodspeedClient value).
Proof.
  intros Hbefore Hvalue.
  assert (Hchosen : forall args,
    scan_token args = Some value ->
    startup (node :: script :: before ++ args) env
    = Serving (setAuthToken createGodspeedClient value)).
  { intros args Hscan. rewrite startup_of_tokenArg. unfold tokenArg.
    simpl skipn. rewrite (scan_token_skips before args Hbefore), Hscan.
    destruct (String.eqb_spec value ""); [contradiction | reflexivity]. }
  split; [ | split]; apply Hchosen.
  - reflexivity.
  - reflexivity.
  - apply scan_token_equals.
Qed.

Lemma first_token_flag_decides_witness :
  (forallb (fun arg => negb (is_token_flag arg)) ["--verbose"] = true
   /\ "--token=other" <> "")
  /\ startup ["node"; "godspeed-mcp"; "--verbose"; "-t"; "--token=other";
              "--token=third"] (Some "from-env")
     = Serving (setAuthToken createGodspeedClient "--token=other").
Proof.
  assert (Hvalue : "--token=other" <> "") by discriminate.
  split; [split; [reflexivity | exact Hvalue] | ].
  exact (proj1 (proj2
           (first_token_flag_decides "node" "godspeed-mcp" ["--verbose"]
              "--token=other" ["--token=third"] (Some "from-env")
              eq_refl Hvalue))).
Defined.

(** X15.  A first token flag without a value ends the search all the
    same: when [--token] or [-t] is the last argument, or is followed by
    an empty argument, or the flag is a bare [--token=], the process
    starts as if no argument had been given, on the environment variable
    alone, and a later flag that does have a value is ignored.  So does a
    command line without a token flag.  Without arguments the process
    exits with status 1 exactly when the variable is unset or empty. *)
Theorem valueless_flag_falls_back node script before rest env :
  forallb (fun arg => negb (is_token_flag arg)) before = true ->
  startup (node :: script :: before ++ ["--token"]) env = startup [] env
  /\ startup (node :: script :: before ++ ["-t"]) env = startup [] env
  /\ startup (node :: script :: before ++ "--token" :: "" :: rest) env
     = startup [] env
  /\ startup (node :: script :: before ++ "--token=" :: rest) env
     = startup [] env
  /\ startup (node :: script :: before) env = startup [] env
  /\ (startup [] env = missing_token <-> env = None \/ env = Some "").
Proof.
  intros Hbefore.
  assert (Hfallback : forall args,
    scan_token args = None \/ scan_token args = Some "" ->
    startup (node :: script :: before ++ args) env = startup [] env).
  { intros args Hscan. rewrite startup_of_tokenArg. unfold tokenArg.
    simpl skipn. rewrite (scan_token_skips before args Hbefore).
    destruct Hscan as [-> | ->]; reflexivity. }
  repeat split.
  - apply Hfallback. left. reflexivity.
  - apply Hfallback. left. reflexivity.
  - apply Hfallback. right. reflexivity.
  - apply Hfallback. right. exact (scan_token_equals "" rest).
  - rewrite <- (app_nil_r before) at 1. apply Hfallback. left. reflexivity.
  - rewrite startup_env_only. destruct env as [token | ]; [ | auto].
    destruct (String.eqb_spec token ""); [subst; auto | discriminate].
  - rewrite startup_env_only. intros [-> | ->]; reflexivity.
Qed.

Lemma valueless_flag_falls_back_witness :
  forallb (fun arg => negb (is_token_flag arg)) ["--verbose"] = true
  /\ startup ["node"; "godspeed-mcp"; "--verbose"; "--token=";
              "--token=ignored"] (Some "from-env")
     = Serving (setAuthToken createGodspeedClient "from-env")
  /\ startup ["node"; "godspeed-mcp"; "--verbose"; "--token"] None
     = missing_token.
Proof.
  split; [reflexivity | ].
  destruct (valueless_flag_falls_back "node" "godspeed-mcp" ["--verbose"]
              ["--token=ignored"] (Some "from-env") eq_refl)
    as [_ [_ [_ [Hbare _]]]].
  destruct (valueless_flag_falls_back "node" "godspeed-mcp" ["--verbose"]
              [] None eq_refl)
    as [Hlast _].
  split; [exact Hbare | exact Hlast].
Defined.

(* ===================================================================== *)
(** ** The earlier client *)
(* ===================================================================== *)

Lemma legacy_updateTask_authenticated host api token params log :
  authToken api = Some token -> token <> "" ->
  Legacy.updateTask host api params log
  = (conclude host (UpdateTask params)
       (remote host (request_of host token (UpdateTask params))),
     (log ++ [request_of host token (UpdateTask params)])%list).
Proof.
  intros Htok Hne. unfold Legacy.updateTask. authenticated Htok Hne.
  cbv zeta. rewrite JSON_stringify_object.
  apply (send_concludes host (UpdateTask params)).
Qed.

Lemma legacy_getTask_authenticated host api token id log :
  authToken api = Some token -> token <> "" ->
  Legacy.getTask host api id log
  = (conclude host (GetTask id)
       (remote host (request_of host token (GetTask id))),
     (log ++ [request_of host token (GetTask id)])%list).
Proof.
  intros Htok Hne. unfold Legacy.getTask. authenticated Htok Hne.
  apply (send_concludes host (GetTask id)).
Qed.

Lemma legacy_deleteTask_authenticated host api token id log :
  authToken api = Some token -> token <> "" ->
  Legacy.deleteTask host api id log
  = (conclude host (DeleteTask id)
       (remote host (request_of host token (DeleteTask id))),
     (log ++ [request_of host token (DeleteTask id)])%list).
Proof.
  intros Htok Hne. unfold Legacy.deleteTask. authenticated Htok Hne.
  apply (send_concludes host (DeleteTask id)).
Qed.

Lemma append_cancel (p a b : string) : p ++ a = p ++ b -> a = b.
Proof.
  induction p as [ | c p IH]; simpl; intros H; [exact H | ].
  injection H as H. exact (IH H).
Qed.

Lemma not_appended {A} (log : list A) (x : A) : (log ++ [x])%list <> log.
Proof.
  intros H. apply (f_equal (@List.length A)) in H.
  rewrite length_app in H. simpl in H. lia.
Qed.

(** With a token, each of the six methods that are not the completion
    methods sends its request whatever its arguments. *)
Lemma legacy_invoke_authenticated host api token op legacy log :
  Legacy.invoke host api op = Some legacy ->
  (forall id, op <> CompleteTask id) ->
  (forall id, op <> UncompleteTask id) ->
  authToken api = Some token -> token <> "" ->
  legacy log
  = (conclude host op (remote host (request_of host token op)),
     (log ++ [request_of host token op])%list).
Proof.
  intros Hop Hcomplete Huncomplete Htok Hne.
  destruct op; simpl in Hop; try discriminate Hop;
    try (injection Hop as <-).
  - exact (invoke_authenticated host api token (CreateTask params) log
             Htok Hne).
  - apply legacy_updateTask_authenticated; assumption.
  - apply legacy_getTask_authenticated; assumption.
  - apply legacy_deleteTask_authenticated; assumption.
  - exact (invoke_authenticated host api token (ListTasks params) log
             Htok Hne).
  - exact (invoke_authenticated host api token GetTaskLists log Htok Hne).
  - contradiction (Hcomplete id). reflexivity.
  - contradiction (Huncomplete id). reflexivity.
Qed.

(** Without a token, every method of the earlier client reports that. *)
Lemma legacy_invoke_unauthenticated host api op legacy log :
  Legacy.invoke host api op = Some legacy ->
  token_set api = false ->
  legacy log
  = (Throw (Error (error_label op ++ ": " ++ auth_required)), log).
Proof.
  intros Hop Hset.
  pose proof (getAuthHeaders_none api log Hset) as Hauth.
  destruct op; simpl in Hop; try discriminate Hop; injection Hop as <-;
    unfold Legacy.createTask, Legacy.updateTask, Legacy.getTask,
      Legacy.deleteTask, Legacy.listTasks, Legacy.getTaskLists,
      Legacy.completeTask, Legacy.uncompleteTask, Legacy.updateTask;
    erewrite try_bind_throw by exact Hauth; reflexivity.
Qed.

(** X16.  Where the earlier client and the current one differ on the six
    methods that are not the completion methods ([createTask],
    [updateTask], [getTask], [deleteTask], [listTasks], [getTaskLists]):
    nowhere but at the validations of the current one.  A call of the
    earlier client completes as the call of the current client does, and
    leaves the same log, exactly when no validation of the current client
    stops the call: with a token, none of the local checks fails; without
    one, the missing token is what the current client reports.  Where a
    validation stops the current client, the earlier one goes on: without
    a token it reports the missing token, and with one it sends the
    request and completes by the reply. *)
Theorem legacy_differs_at_validation_only host api op legacy log :
  Legacy.invoke host api op = Some legacy ->
  (forall id, op <> CompleteTask id) ->
  (forall id, op <> UncompleteTask id) ->
  (legacy log = invoke host api op log
   <-> if token_set api then local_failure host op = None
       else unauthenticated_failure op = auth_required)
  /\ (token_set api = false ->
      legacy log
      = (Throw (Error (error_label op ++ ": " ++ auth_required)), log))
  /\ (forall token,
        authToken api = Some token -> token <> "" ->
        legacy log
        = (conclude host op (remote host (request_of host token op)),
           (log ++ [request_of host token op])%list)).
Proof.
  intros Hop Hcomplete Huncomplete.
  split; [ | split].
  - destruct (token_set api) eqn:Hset.
    + destruct (token_set_true api Hset) as [token [Htok Hne]].
      rewrite (legacy_invoke_authenticated host api token op legacy log
                 Hop Hcomplete Huncomplete Htok Hne).
      rewrite (invoke_authenticated host api token op log Htok Hne).
      destruct (local_failure host op) as [msg | ].
      * split; [ | discriminate].
        intros H. injection H as _ H.
        contradiction (not_appended log _ H).
      * split; reflexivity.
    + rewrite (legacy_invoke_unauthenticated host api op legacy log
                 Hop Hset).
      rewrite (invoke_unauthenticated host api op log Hset).
      split.
      * intros H. injection H as H.
        apply append_cancel in H. injection H as H.
        symmetry. exact H.
      * intros ->. reflexivity.
  - exact (legacy_invoke_unauthenticated host api op legacy log Hop).
  - intros token.
    exact (legacy_invoke_authenticated host api token op legacy log
             Hop Hcomplete Huncomplete).
Qed.

Lemma legacy_differs_at_validation_only_witness :
  let host := example_host (replies 200 task_T1) in
  let op := GetTask (VString "") in
  let legacy := Legacy.getTask host example_api (VString "") in
  Legacy.invoke host example_api op = Some legacy
  /\ legacy [] <> invoke host example_api op []
  /\ invoke host example_api op []
     = (Throw (Error "Get task error: Task ID is required"), [])
  /\ legacy []
     = (Normal task_T1,
        [mkRequest "https://api.godspeedapp.com/tasks/" GET
           (bearer "secret") None]).
Proof.
  intros host op legacy.
  assert (Hne : "secret" <> "") by discriminate.
  assert (Hcomplete : forall id, op <> CompleteTask id) by discriminate.
  assert (Huncomplete : forall id, op <> UncompleteTask id) by discriminate.
  destruct (legacy_differs_at_validation_only host example_api op legacy []
              eq_refl Hcomplete Huncomplete) as [Hsame [_ Hsent]].
  split; [reflexivity | split; [ | split; [reflexivity | ]]].
  - intros H. apply Hsame in H. discriminate H.
  - exact (Hsent "secret" eq_refl Hne).
Defined.

(** X17.  The earlier client validates nothing: with a token, its
    [updateTask], [getTask] and [deleteTask] always send their request,
    whatever the arguments.  An update without [id] goes to
    [/tasks/undefined], and a read or a delete of the empty identifier
    goes to [/tasks/], the path of the collection. *)
Theorem legacy_sends_whatever_it_gets host api token params id log :
  authToken api = Some token -> token <> "" ->
  issued (Legacy.updateTask host api params) log
  = [mkRequest
       (API_BASE_URL ++ "/tasks/" ++ ToString host (get params "id"))
       PATCH (bearer token)
       (Some (json_object host (supplied (omit "id" params))))]
  /\ issued (Legacy.getTask host api id) log
     = [mkRequest (API_BASE_URL ++ "/tasks/" ++ ToString host id) GET
          (bearer token) None]
  /\ issued (Legacy.deleteTask host api id) log
     = [mkRequest (API_BASE_URL ++ "/tasks/" ++ ToString host id) DELETE
          (bearer token) None]
  /\ (get params "id" = VUndefined ->
      forall r,
        In r (issued (Legacy.updateTask host api params) log) ->
        url r = API_BASE_URL ++ "/tasks/undefined")
  /\ (id = VString "" ->
      forall r,
        In r (issued (Legacy.getTask host api id) log)
        \/ In r (issued (Legacy.deleteTask host api id) log) ->
        url r = API_BASE_URL ++ "/tasks/").
Proof.
  intros Htok Hne.
  assert (Hupdate :
    issued (Legacy.updateTask host api params) log
    = [request_of host token (UpdateTask params)]).
  { apply issued_appended.
    rewrite (legacy_updateTask_authenticated host api token params log
               Htok Hne). reflexivity. }
  assert (Hget :
    issued (Legacy.getTask host api id) log
    = [request_of host token (GetTask id)]).
  { apply issued_appended.
    rewrite (legacy_getTask_authenticated host api token id log Htok Hne).
    reflexivity. }
  assert (Hdelete :
    issued (Legacy.deleteTask host api id) log
    = [request_of host token (DeleteTask id)]).
  { apply issued_appended.
    rewrite (legacy_deleteTask_authenticated host api token id log Htok Hne).
    reflexivity. }
  split; [exact Hupdate | split; [exact Hget | split; [exact Hdelete | ]]].
  split.
  - intros Hid r. rewrite Hupdate. intros [<- | []].
    simpl. rewrite Hid. reflexivity.
  - intros -> r. rewrite Hget, Hdelete.
    intros [[<- | []] | [<- | []]]; reflexivity.
Qed.

Lemma legacy_sends_whatever_it_gets_witness :
  let host := example_host (replies 404 (VObject [])) in
  (authToken example_api = Some "secret" /\ "secret" <> "")
  /\ issued (Legacy.updateTask host example_api
               [("title", VString "Buy milk")]) []
     = [mkRequest "https://api.godspeedapp.com/tasks/undefined" PATCH
          (bearer "secret")
          (Some (json_object host [("title", VString "Buy milk")]))]
  /\ issued (Legacy.getTask host example_api (VString "")) []
     = [mkRequest "https://api.godspeedapp.com/tasks/" GET
          (bearer "secret") None].
Proof.
  intros host.
  assert (Hne : "secret" <> "") by discriminate.
  split; [split; [reflexivity | exact Hne] | ].
  destruct (legacy_sends_whatever_it_gets host example_api "secret"
              [("title", VString "Buy milk")] (VString "") [] eq_refl Hne)
    as [Hupdate [Hget _]].
  split; [exact Hupdate | exact Hget].
Defined.

(** X18.  In the earlier dispatcher every tool mirrors the input of its
    client operation, [getTaskLists] included: it declares no argument
    and accepts the empty record. *)
Theorem legacy_shapes_mirror tool :
  In tool Legacy.tools ->
  shape_mirrors (Legacy.inputSchema tool) (Legacy.client_inputs tool) = true
  /\ required_keys (Legacy.inputSchema tool)
     = map prop_name
         (filter (fun p => negb (prop_optional p))
            (Legacy.client_inputs tool))
  /\ required_keys (Legacy.inputSchema tool_getTaskLists) = []
  /\ zod_object_parse (Legacy.inputSchema tool_getTaskLists) (VObject [])
     = Some [].
Proof.
  intros Htool.
  repeat (destruct Htool as [<- | Htool]; [repeat split | ]).
  contradiction.
Qed.

Lemma legacy_shapes_mirror_witness :
  In tool_createTask Legacy.tools
  /\ shape_mirrors (Legacy.inputSchema tool_createTask)
       Legacy.CreateTaskParams = true
  /\ required_keys (Legacy.inputSchema tool_createTask)
     = ["title"; "list_id"].
Proof.
  assert (Htool : In tool_createTask Legacy.tools) by (simpl; auto).
  split; [exact Htool | ].
  destruct (legacy_shapes_mirror tool_createTask Htool)
    as [Hmirror [Hrequired _]].
  split; [exact Hmirror | exact Hrequired].
Defined.

(** X19.  The two clients do not name the completion flag alike.  The
    earlier [completeTask] and [uncompleteTask] send [completed], where
    the later ones send [is_complete], to the same path; and the earlier
    ones send it whether or not there is an identifier. *)
Theorem legacy_completion_flag host api token id flag log :
  authToken api = Some token -> token <> "" ->
  issued (if flag : bool then Legacy.completeTask host api id
          else Legacy.uncompleteTask host api id) log
  = [mkRequest (API_BASE_URL ++ "/tasks/" ++ ToString host id) PATCH
       (bearer token)
       (Some ("{" ++ QuoteJSONString "completed" ++ ":"
              ++ (if flag then "true" else "false") ++ "}"))]
  /\ (truthy id = true ->
      forall r r',
        In r (issued (if flag then Legacy.completeTask host api id
                      else Legacy.uncompleteTask host api id) log) ->
        In r' (issued (if flag then completeTask host api id
                       else uncompleteTask host api id) log) ->
        url r = url r' /\ method r = method r' /\ body r <> body r').
Proof.
  intros Htok Hne.
  assert (Hlegacy :
    issued (if flag then Legacy.completeTask host api id
            else Legacy.uncompleteTask host api id) log
    = [mkRequest (API_BASE_URL ++ "/tasks/" ++ ToString host id) PATCH
         (bearer token)
         (Some ("{" ++ QuoteJSONString "completed" ++ ":"
                ++ (if flag then "true" else "false") ++ "}"))]).
  { apply issued_appended.
    destruct flag; unfold Legacy.completeTask, Legacy.uncompleteTask;
      rewrite (legacy_updateTask_authenticated host api token _ log
                 Htok Hne); reflexivity. }
  split; [exact Hlegacy | ].
  intros Hid r r'. rewrite Hlegacy.
  replace (if flag then completeTask host api id
           else uncompleteTask host api id)
    with (invoke host api (if flag then CompleteTask id
                           else UncompleteTask id))
    by (destruct flag; reflexivity).
  rewrite (issued_authenticated host api token _ log Htok Hne).
  replace (local_failure host (if flag then CompleteTask id
                               else UncompleteTask id))
    with (@None string)
    by (destruct flag; simpl; unfold id_failure; rewrite Hid; reflexivity).
  intros [<- | []] [<- | []].
  destruct flag; simpl; repeat split; discriminate.
Qed.

Lemma legacy_completion_flag_witness :
  let host := example_host (replies 200 task_T1) in
  (authToken example_api = Some "secret" /\ "secret" <> "")
  /\ issued (Legacy.completeTask host example_api (VString "T1")) []
     = [mkRequest "https://api.godspeedapp.com/tasks/T1" PATCH
          (bearer "secret")
          (Some ("{" ++ dquote ++ "completed" ++ dquote ++ ":true}"))].
Proof.
  intros host.
  assert (Hne : "secret" <> "") by discriminate.
  split; [split; [reflexivity | exact Hne] | ].
  exact (proj1 (legacy_completion_flag host example_api "secret"
                  (VString "T1") true [] eq_refl Hne)).
Defined.

(* ===================================================================== *)
(** ** The first client: when it logs in *)
(* ===================================================================== *)

Lemma authenticate_run host credentials token log :
  Credentials.authenticate host credentials token log
  = (fst (Credentials.login_outcome host token
            (remote host (Credentials.login_request host credentials))),
     snd (Credentials.login_outcome host token
            (remote host (Credentials.login_request host credentials))),
     (log ++ [Credentials.login_request host credentials])%list).
Proof.
  unfold Credentials.authenticate, Credentials.try_catchM, Credentials.bindM,
    Credentials.lift, Credentials.rewrapM, Credentials.throwM,
    Credentials.retM, Credentials.read_token, Credentials.write_token,
    Credentials.login_outcome, fetch, json, ok.
  change (mkRequest (url (Credentials.login_request host credentials))
            (method (Credentials.login_request host credentials))
            (headers (Credentials.login_request host credentials))
            (body (Credentials.login_request host credentials)))
    with (Credentials.login_request host credentials).
  destruct (remote host (Credentials.login_request host credentials))
    as [msg | s [data | msg]]; simpl; try reflexivity.
  destruct (status_ok s); simpl; destruct data; simpl; try reflexivity;
    unfold new_Error, bind, throw, ret;
    match goal with
    | |- context [truthy ?v] => destruct (truthy v) eqn:Htruthy
    end; try reflexivity.
  destruct (ToString_throws (get props "error")); [reflexivity | ].
  destruct (get props "error"); try reflexivity. discriminate Htruthy.
Qed.

Lemma try_bindM_normal {A B} (m : Credentials.M A) (k : A -> Credentials.M B)
    h token log a token' log' :
  m token log = (Normal a, token', log') ->
  Credentials.try_catchM (Credentials.bindM m k) h token log
  = Credentials.try_catchM (k a) h token' log'.
Proof.
  intros Hm. unfold Credentials.try_catchM, Credentials.bindM.
  rewrite Hm. reflexivity.
Qed.

Lemma try_bindM_throw {A B} (m : Credentials.M A) (k : A -> Credentials.M B)
    h token log e token' log' :
  m token log = (Throw e, token', log') ->
  Credentials.try_catchM (Credentials.bindM m k) h token log
  = h e token' log'.
Proof.
  intros Hm. unfold Credentials.try_catchM, Credentials.bindM.
  rewrite Hm. reflexivity.
Qed.

(** The part of a method after the headers runs on the log alone. *)
Lemma lifted_send {A B} (f : Eff A) (g : A -> Eff B) label token log :
  Credentials.try_catchM
    (Credentials.bindM (Credentials.lift f)
       (fun r => Credentials.lift (g r)))
    (Credentials.rewrapM label) token log
  = (fst (try_catch (bind f g) (rewrap label) log), token,
     snd (try_catch (bind f g) (rewrap label) log)).
Proof.
  unfold Credentials.try_catchM, Credentials.bindM, Credentials.lift,
    Credentials.rewrapM, Credentials.throwM, try_catch, bind, rewrap, throw.
  destruct (f log) as [[r | e] log1]; [ | reflexivity].
  destruct (g r log1) as [[d | e] log2]; reflexivity.
Qed.


Lemma getAuthHeaders_login host credentials token log :
  truthy token = false ->
  Credentials.getAuthHeaders host credentials token log
  = match Credentials.login_outcome host token
            (remote host (Credentials.login_request host credentials)) with
    | (Normal _, token') =>
        (Normal (bearer (ToString host token')), token',
         (log ++ [Credentials.login_request host credentials])%list)
    | (Throw e, token') =>
        (Throw e, token',
         (log ++ [Credentials.login_request host credentials])%list)
    end.
Proof.
  intros Htoken.
  unfold Credentials.getAuthHeaders, Credentials.bindM,
    Credentials.read_token, Credentials.retM.
  rewrite Htoken. change (negb false) with true. cbv beta iota.
  rewrite authenticate_run.
  destruct (Credentials.login_outcome host token
              (remote host (Credentials.login_request host credentials)))
    as [[value | e] token']; reflexivity.
Qed.


(** A method on a client without a token: the log-in first, and the
    method's own request only if that gave a token. *)
Lemma call_after_login host credentials label generic u m b token log :
  truthy token = false ->
  Credentials.call host credentials label generic u m b token log
  = match Credentials.login_outcome host token
            (remote host (Credentials.login_request host credentials)) with
    | (Normal _, token') =>
        (fst (try_catch
                (bind (fetch host u m (bearer (ToString host token')) b)
                   (settle host generic))
                (rewrap label)
                (log ++ [Credentials.login_request host credentials])%list),
         token',
         snd (try_catch
                (bind (fetch host u m (bearer (ToString host token')) b)
                   (settle host generic))
                (rewrap label)
                (log ++ [Credentials.login_request host credentials])%list))
    | (Throw e, token') =>
        (Throw (Error (label ++ ": " ++ message e)), token',
         (log ++ [Credentials.login_request host credentials])%list)
    end.
Proof.
  intros Htoken. unfold Credentials.call.
  pose proof (getAuthHeaders_login host credentials token log Htoken)
    as Hheaders.
  destruct (Credentials.login_outcome host token
              (remote host (Credentials.login_request host credentials)))
    as [[value | e] token'].
  - erewrite try_bindM_normal by exact Hheaders. apply lifted_send.
  - erewrite try_bindM_throw by exact Hheaders. reflexivity.
Qed.

Lemma run_is_call host credentials op method token :
  Credentials.run host credentials op = Some method ->
  exists u m b,
    method
    = Credentials.call host credentials (error_label op)
        (generic_failure op) u m b
    /\ mkRequest u m (bearer (ToString host token)) b
       = Credentials.request_with host token op.
Proof.
  destruct op; simpl; intros Hrun; try discriminate;
    injection Hrun as <-;
    unfold Credentials.createTask, Credentials.updateTask,
      Credentials.getTask, Credentials.deleteTask, Credentials.listTasks,
      Credentials.getTaskLists, Credentials.completeTask,
      Credentials.uncompleteTask, Credentials.updateTask;
    cbv zeta; do 3 eexists; (split; [reflexivity | ]);
    rewrite ?JSON_stringify_object, ?listTasks_url_supplied; reflexivity.
Qed.


Lemma login_token_none host token reply :
  truthy token = false ->
  Credentials.login_token reply = None ->
  exists reason token',
    Credentials.login_outcome host token reply
    = (Throw (Error ("Authentication error: " ++ reason)), token')
    /\ truthy token' = false.
Proof.
  intros Htoken.
  unfold Credentials.login_token, Credentials.login_outcome.
  destruct reply as [msg | s [data | msg]];
    try (intros _; do 2 eexists; split; [reflexivity | exact Htoken]).
  destruct (status_ok s); simpl.
  - destruct data;
      try (intros _; do 2 eexists; split; [reflexivity | ]; auto; fail).
    destruct (truthy (get props "token")) eqn:Htruthy; [discriminate | ].
    intros _. do 2 eexists. split; [reflexivity | exact Htruthy].
  - intros _.
    destruct data; do 2 eexists; (split; [reflexivity | exact Htoken]).
Qed.



Lemma method_after_failed_login host credentials op method token log :
  Credentials.run host credentials op = Some method ->
  truthy token = false ->
  Credentials.login_token
    (remote host (Credentials.login_request host credentials)) = None ->
  exists reason token',
    method token log
    = (Throw (Error (error_label op ++ ": Authentication error: "
                     ++ reason)),
       token',
       (log ++ [Credentials.login_request host credentials])%list)
    /\ truthy token' = false.
Proof.
  intros Hrun Htoken Hlogin.
  destruct (login_token_none host token _ Htoken Hlogin)
    as [reason [token' [Houtcome Hfalsy]]].
  exists reason, token'. split; [ | exact Hfalsy].
  destruct (run_is_call host credentials op method token Hrun)
    as [u [m [b [-> _]]]].
  rewrite (call_after_login host credentials _ _ u m b token log Htoken).
  rewrite Houtcome. reflexivity.
Qed.





(** X22.  When the log-in does not give a token (no response, a body
    that is not JSON, a status outside 200-299, no truthy [token] in the
    body), the method throws
    [<label>: Authentication error: <reason>], its own request is never
    sent (the log-in is the only one), and the client still has no
    token. *)
Theorem failed_login_fails_the_call host credentials op method token log :
  Credentials.run host credentials op = Some method ->
  truthy token = false ->
  Credentials.login_token
    (remote host (Credentials.login_request host credentials)) = None ->
  exists reason token',
    method token log
    = (Throw (Error (error_label op ++ ": Authentication error: "
                     ++ reason)),
       token',
       (log ++ [Credentials.login_request host credentials])%list)
    /\ truthy token' = false.
Proof.
  exact (method_after_failed_login host credentials op method token log).
Qed.

Lemma failed_login_fails_the_call_witness :
  let host :=
    example_host (replies 401 (VObject [("error", VString "bad password")])) in
  let credentials := Credentials.mkCredentials "ada" "wrong" in
  (truthy VUndefined = false
   /\ Credentials.login_token
        (remote host (Credentials.login_request host credentials)) = None)
  /\ exists reason token',
       Credentials.createTask host credentials
         [("title", VString "Buy milk")] VUndefined []
       = (Throw (Error ("Create task error: Authentication error: "
                        ++ reason)),
          token', [Credentials.login_request host credentials])
       /\ truthy token' = false.
Proof.
  intros host credentials. split; [split; reflexivity | ].
  exact (failed_login_fails_the_call host credentials
           (CreateTask [("title", VString "Buy milk")])
           (Credentials.createTask host credentials
              [("title", VString "Buy milk")])
           VUndefined [] eq_refl eq_refl eq_refl).
Defined.


